(** * is-it-fake/core: the SMTP probe, the MX cache and the batch dispatcher

    A shallow embedding of [main.go] (both revisions under [src/]: the
    single-address server and the later one with the MX cache and the
    streaming batch endpoint) and the properties of its core.

    - Go strings are byte strings: [string].
    - A Go [error] is [option string]: [None] is [nil], [Some m] an error
      whose [Error()] text is [m].
    - The network ([net.LookupMX], [net.Dial], [net/smtp]) is outside the
      repository.  It is an environment [Env] of oracles; each oracle sees
      the operations the process has issued so far, so that two calls of
      the same operation may be answered differently.
    - Process state is threaded explicitly: the global [mxCache], the
      clock behind [time.Now]/[time.Since], and the log of network
      operations issued.
    - Goroutines of the batch handler are threads of an interleaving
      semantics with the channel semaphore, the [sync.WaitGroup] and the
      write mutex as shared counters. *)

From Stdlib Require Import ZArith Lia Permutation Ascii String.
From stdpp Require Import gmap strings list.

Open Scope string_scope.
Open Scope list_scope.

(** ** Strings *)

(** [strings.Split(s, sep)] for a one-byte separator (the program only
    calls it with ["@"]): the pieces of [s] between the occurrences of
    [sep]; an input without [sep] (the empty string too) gives one piece. *)
Fixpoint strings_Split (s : string) (sep : ascii) : list string :=
  match s with
  | EmptyString => [EmptyString]
  | String c rest =>
      if Ascii.eqb c sep then EmptyString :: strings_Split rest sep
      else match strings_Split rest sep with
           | piece :: pieces => String c piece :: pieces
           | [] => [String c EmptyString]
           end
  end.

(** [strings.Count(s, sep)] for a one-byte separator; used only to state
    properties. *)
Fixpoint strings_Count (s : string) (sep : ascii) : nat :=
  match s with
  | EmptyString => 0
  | String c rest =>
      if Ascii.eqb c sep then S (strings_Count rest sep)
      else strings_Count rest sep
  end.

Definition at_sign : ascii := "@"%char.

(** ** Data *)

(** Go's [error]. *)
Definition error : Type := option string.

Definition is_err (e : error) : bool :=
  match e with Some _ => true | None => false end.

(** [net.MX]. *)
Record MX : Type := { Host : string; Pref : N }.

(** [EmailResponse], the verdict. *)
Record EmailResponse : Type :=
  { Email : string; Valid : bool; Message : string }.

(** [mxCacheEntry]; a [time.Time] is a clock reading in nanoseconds. *)
Record mxCacheEntry : Type :=
  { records : list MX; timestamp : Z }.

(** [mxCacheTTL = 5 * time.Minute], in nanoseconds. *)
Definition mxCacheTTL : Z := 5 * (60 * 1000000000).

(** ** The network and the process state *)

(** Operations the process issues on the outside world. *)
Inductive NetOp : Type :=
| OpLookupMX (domain : string)
| OpDial (network address : string)
| OpNewClient (host : string)
| OpHello (localName : string)
| OpMail (from : string)
| OpRcpt (to : string)
| OpClientClose
| OpConnClose.

(** The outside world.  Every oracle is given the operations issued
    before the one it answers.  [net_LookupMX] may return records and an
    error together, as Go's does. *)
Record Env : Type :=
  { net_LookupMX : list NetOp -> string -> list MX * error;
    net_Dial : list NetOp -> string -> string -> error;
    smtp_NewClient : list NetOp -> string -> error;
    client_Hello : list NetOp -> string -> error;
    client_Mail : list NetOp -> string -> error;
    client_Rcpt : list NetOp -> string -> error;
    (** time one operation takes, in nanoseconds *)
    latency : list NetOp -> NetOp -> N }.

(** The process state threaded through the code. *)
Record World : Type :=
  { mxCache : gmap string mxCacheEntry;   (* the global [mxCache] *)
    now : Z;                              (* the clock *)
    netlog : list NetOp }.                (* operations issued, oldest first *)

Definition initial_World (t0 : Z) : World :=
  {| mxCache := ∅; now := t0; netlog := [] |}.

(** State passing. *)
Definition M (A : Type) : Type := World -> A * World.

Definition ret {A} (a : A) : M A := fun w => (a, w).

Definition bind {A B} (m : M A) (k : A -> M B) : M B :=
  fun w => let (a, w') := m w in k a w'.

Notation "x <- m ;; k" := (bind m (fun x => k))
  (at level 100, m at next level, right associativity).
Notation "m ;;; k" := (bind m (fun _ => k))
  (at level 100, right associativity).

Definition gets {A} (f : World -> A) : M A := fun w => (f w, w).

(** Time passing outside of the modelled calls. *)
Definition elapse (d : N) (w : World) : World :=
  {| mxCache := mxCache w; now := now w + Z.of_N d; netlog := netlog w |}.

Section Program.

Variable env : Env.

(** Issue one network operation: it is logged, and the clock moves by
    the time it takes. *)
Definition perform (op : NetOp) : M unit := fun w =>
  (tt, {| mxCache := mxCache w;
          now := now w + Z.of_N (latency env (netlog w) op);
          netlog := netlog w ++ [op] |}).

Definition LookupMX (domain : string) : M (list MX * error) :=
  ans <- gets (fun w => net_LookupMX env (netlog w) domain) ;;
  perform (OpLookupMX domain) ;;;
  ret ans.

Definition Dial (network address : string) : M error :=
  ans <- gets (fun w => net_Dial env (netlog w) network address) ;;
  perform (OpDial network address) ;;;
  ret ans.

Definition NewClient (host : string) : M error :=
  ans <- gets (fun w => smtp_NewClient env (netlog w) host) ;;
  perform (OpNewClient host) ;;;
  ret ans.

Definition Hello (localName : string) : M error :=
  ans <- gets (fun w => client_Hello env (netlog w) localName) ;;
  perform (OpHello localName) ;;;
  ret ans.

Definition Mail (from : string) : M error :=
  ans <- gets (fun w => client_Mail env (netlog w) from) ;;
  perform (OpMail from) ;;;
  ret ans.

Definition Rcpt (to : string) : M error :=
  ans <- gets (fun w => client_Rcpt env (netlog w) to) ;;
  perform (OpRcpt to) ;;;
  ret ans.

(** [defer cleanup] around the rest of the function body. *)
Definition defer {A} (cleanup : M unit) (body : M A) : M A :=
  a <- body ;; cleanup ;;; ret a.

(** [checkMXRecords] *)
Definition checkMXRecords (domain : string) : M (bool * error) :=
  ans <- LookupMX domain ;;
  let '(mxRecords, err) := ans in
  if is_err err then ret (false, err)
  else ret ((0 <? length mxRecords)%nat, None).

(** [time.Now()] and [time.Since(t)]: readings of the clock.  A
    [time.Duration] saturates at the ends of [int64]; that never changes
    its comparison with [mxCacheTTL], so the difference is taken in [Z]. *)
Definition time_Now : M Z := gets now.

Definition time_Since (t : Z) : M Z := gets (fun w => (now w - t)%Z).

(** [mxCache[domain]] under the read lock: the entry (the zero value when
    there is none) and whether it exists. *)
Definition mxCache_load (domain : string) : M (mxCacheEntry * bool) :=
  gets (fun w =>
          match mxCache w !! domain with
          | Some entry => (entry, true)
          | None => ({| records := []; timestamp := 0 |}, false)
          end).

(** [mxCache[domain] = entry] under the write lock. *)
Definition mxCache_store (domain : string) (entry : mxCacheEntry) : M unit :=
  fun w =>
    (tt, {| mxCache := <[domain := entry]> (mxCache w);
            now := now w; netlog := netlog w |}).

(** [getMXRecordsCached] *)
Definition getMXRecordsCached (domain : string) : M (list MX * error) :=
  found <- mxCache_load domain ;;
  let '(entry, exists_) := found in
  age <- time_Since (timestamp entry) ;;
  if exists_ && (age <? mxCacheTTL)%Z then ret (records entry, None)
  else
    ans <- LookupMX domain ;;
    let '(recs, err) := ans in
    if is_err err then ret ([], err)
    else if (length recs =? 0)%nat then ret ([], Some "no MX records found")
    else
      t <- time_Now ;;
      mxCache_store domain {| records := recs; timestamp := t |} ;;;
      ret (recs, None).

(** [verifyEmailSMTP] *)
Definition verifyEmailSMTP (email : string) : M (bool * error) :=
  let parts := strings_Split email at_sign in
  if negb (length parts =? 2)%nat then ret (false, Some "invalid email format")
  else
    let domain := nth 1 parts "" in
    chk <- checkMXRecords domain ;;
    let '(mxValid, err) := chk in
    if is_err err || negb mxValid
    then ret (false, Some "no valid MX records found")
    else
      ans <- LookupMX domain ;;
      let '(mxRecords, _) := ans in
      match mxRecords with
      | [] => ret (false, Some "no MX records found")
      | mx0 :: _ =>
          let server := Host mx0 in
          err <- Dial "tcp" (server ++ ":25")%string ;;
          if is_err err then ret (false, Some "SMTP connection failed")
          else
            defer (perform OpConnClose)
              (err <- NewClient server ;;
               if is_err err
               then ret (false, Some "SMTP client initialization failed")
               else
                 defer (perform OpClientClose)
                   (Hello "localhost" ;;;
                    err <- Mail "check@yourdomain.com" ;;
                    if is_err err
                    then ret (false, Some "MAIL FROM command failed")
                    else
                      err <- Rcpt email ;;
                      if is_err err
                      then ret (false, Some "RCPT TO command failed")
                      else ret (true, None)))
      end.

(** The verdict both handlers build from the probe's result:
    [EmailResponse{Email, Valid: valid, Message: "Email exists"}], then
    [Valid = false] and [Message = err.Error()] when [err != nil]. *)
Definition response (mail : string) (r : bool * error) : EmailResponse :=
  match snd r with
  | Some msg => {| Email := mail; Valid := false; Message := msg |}
  | None => {| Email := mail; Valid := fst r; Message := "Email exists" |}
  end.

(** [checkEmailHandler], after the request is bound: the verdict that
    is sent back. *)
Definition checkEmail (email : string) : M EmailResponse :=
  r <- verifyEmailSMTP email ;;
  ret (response email r).

End Program.

(** ** The batch dispatcher: [checkBulkEmailsStreamHandler]

    The handler after the request is bound.  The main goroutine and the
    goroutines it starts are threads; one step of a thread is one
    synchronisation or one effect of the source. *)

(** What the sink receives: [c.SSEvent(name, payload)] then [Flush]. *)
Inductive SSE : Type :=
| emailResult (res : EmailResponse)
| endEvent (msg : string).

(** [concurrencyLimit := 10], the capacity of [sem]. *)
Definition concurrencyLimit : nat := 10.

(** Where a started goroutine [func(mail string)] stands. *)
Inductive WorkerPC : Type :=
| PProbe                        (* in [verifyEmailSMTP(mail)] *)
| PLock (res : EmailResponse)   (* [res] built; at [writeMutex.Lock()] *)
| PWrite (res : EmailResponse)  (* mutex held: [SSEvent], [Flush], [Unlock] *)
| PRelease                      (* deferred [<-sem] *)
| PWgDone                       (* deferred [wg.Done()] *)
| PExit.                        (* returned *)

Record Worker : Type := { wmail : string; wpc : WorkerPC }.

(** Where the handler's own goroutine stands. *)
Inductive MainPC : Type :=
| MRange (rest : list string)                  (* [for _, email := range] *)
| MAcquire (email : string) (rest : list string) (* after [wg.Add(1)], at [sem <- struct{}{}] *)
| MGo (email : string) (rest : list string)    (* token held, at [go func(...)] *)
| MWait                                        (* [wg.Wait()] *)
| MLock                                        (* [writeMutex.Lock()] *)
| MWrite                                       (* the "end" event, [Flush], [Unlock] *)
| MDone.                                       (* returned *)

Record State : Type :=
  { main : MainPC;
    workers : list Worker;   (* goroutines, in the order they were started *)
    sem : nat;               (* tokens in the channel [sem] *)
    wg : nat;                (* counter of the [sync.WaitGroup] *)
    writeMutex : bool;       (* [true] when locked *)
    out : list SSE;          (* events sent, oldest first *)
    world : World }.

Inductive Tid : Type := TMain | TWorker (i : nat).

(** What a scheduled thread does: a step, nothing because it waits,
    nothing because it has returned, or a run-time panic. *)
Inductive Outcome : Type :=
| Stepped (s : State)
| Blocked
| Finished
| Panic.

Definition set_main (pc : MainPC) (s : State) : State :=
  {| main := pc; workers := workers s; sem := sem s; wg := wg s;
     writeMutex := writeMutex s; out := out s; world := world s |}.

Definition set_worker (i : nat) (w : Worker) (s : State) : State :=
  {| main := main s; workers := <[i := w]> (workers s); sem := sem s;
     wg := wg s; writeMutex := writeMutex s; out := out s; world := world s |}.

Definition set_sem (n : nat) (s : State) : State :=
  {| main := main s; workers := workers s; sem := n; wg := wg s;
     writeMutex := writeMutex s; out := out s; world := world s |}.

Definition set_wg (n : nat) (s : State) : State :=
  {| main := main s; workers := workers s; sem := sem s; wg := n;
     writeMutex := writeMutex s; out := out s; world := world s |}.

Definition set_writeMutex (b : bool) (s : State) : State :=
  {| main := main s; workers := workers s; sem := sem s; wg := wg s;
     writeMutex := b; out := out s; world := world s |}.

Definition emit (e : SSE) (s : State) : State :=
  {| main := main s; workers := workers s; sem := sem s; wg := wg s;
     writeMutex := writeMutex s; out := out s ++ [e]; world := world s |}.

Definition set_world (w : World) (s : State) : State :=
  {| main := main s; workers := workers s; sem := sem s; wg := wg s;
     writeMutex := writeMutex s; out := out s; world := w |}.

Definition spawn (w : Worker) (s : State) : State :=
  {| main := main s; workers := workers s ++ [w]; sem := sem s; wg := wg s;
     writeMutex := writeMutex s; out := out s; world := world s |}.

(** The handler is entered with the bound request's [Emails]. *)
Definition initial_State (emails : list string) (w : World) : State :=
  {| main := MRange emails; workers := []; sem := 0; wg := 0;
     writeMutex := false; out := []; world := w |}.

Section Dispatcher.

Variable env : Env.

Definition step_main (s : State) : Outcome :=
  match main s with
  | MRange [] => Stepped (set_main MWait s)
  | MRange (email :: rest) =>
      Stepped (set_main (MAcquire email rest) (set_wg (S (wg s)) s))
  | MAcquire email rest =>
      if (sem s <? concurrencyLimit)%nat
      then Stepped (set_main (MGo email rest) (set_sem (S (sem s)) s))
      else Blocked
  | MGo email rest =>
      Stepped (set_main (MRange rest)
                 (spawn {| wmail := email; wpc := PProbe |} s))
  | MWait =>
      if (wg s =? 0)%nat then Stepped (set_main MLock s) else Blocked
  | MLock =>
      if writeMutex s then Blocked
      else Stepped (set_main MWrite (set_writeMutex true s))
  | MWrite =>
      Stepped (set_main MDone
                 (set_writeMutex false
                    (emit (endEvent "All emails processed") s)))
  | MDone => Finished
  end.

Definition step_worker (i : nat) (s : State) : Outcome :=
  match workers s !! i with
  | None => Finished
  | Some w =>
      let mail := wmail w in
      let goto pc := set_worker i {| wmail := mail; wpc := pc |} in
      match wpc w with
      | PProbe =>
          let (r, world') := verifyEmailSMTP env mail (world s) in
          Stepped (goto (PLock (response mail r)) (set_world world' s))
      | PLock res =>
          if writeMutex s then Blocked
          else Stepped (goto (PWrite res) (set_writeMutex true s))
      | PWrite res =>
          Stepped (goto PRelease
                     (set_writeMutex false (emit (emailResult res) s)))
      | PRelease =>
          match sem s with
          | O => Blocked
          | S n => Stepped (goto PWgDone (set_sem n s))
          end
      | PWgDone =>
          match wg s with
          | O => Panic
          | S n => Stepped (goto PExit (set_wg n s))
          end
      | PExit => Finished
      end
  end.

Definition step (t : Tid) (s : State) : Outcome :=
  match t with
  | TMain => step_main s
  | TWorker i => step_worker i s
  end.

(** An execution: the threads named by the schedule each take a step,
    in that order. *)
Fixpoint run (sched : list Tid) (s : State) : option State :=
  match sched with
  | [] => Some s
  | t :: sched' =>
      match step t s with
      | Stepped s' => run sched' s'
      | _ => None
      end
  end.

End Dispatcher.

(** Counting the goroutines at given places. *)
Fixpoint count_if {A} (P : A -> bool) (l : list A) : nat :=
  match l with
  | [] => 0
  | x :: l' => (if P x then 1 else 0) + count_if P l'
  end.

Definition probing (w : Worker) : bool :=
  match wpc w with PProbe => true | _ => false end.

(** A started goroutine holds its token until its deferred [<-sem]. *)
Definition holds_token (w : Worker) : bool :=
  match wpc w with
  | PProbe | PLock _ | PWrite _ | PRelease => true
  | PWgDone | PExit => false
  end.

Definition live (w : Worker) : bool :=
  match wpc w with PExit => false | _ => true end.

Definition writing (w : Worker) : bool :=
  match wpc w with PWrite _ => true | _ => false end.

Definition has_written (w : Worker) : bool :=
  match wpc w with
  | PRelease | PWgDone | PExit => true
  | PProbe | PLock _ | PWrite _ => false
  end.

(** Probes in flight, and tokens given to started goroutines and not yet
    returned. *)
Definition in_flight (s : State) : nat := count_if probing (workers s).
Definition released (s : State) : nat :=
  count_if (fun w => negb (holds_token w)) (workers s).

(** The verdicts among the events sent, and whether the terminal marker
    is among them. *)
Definition verdicts (o : list SSE) : list EmailResponse :=
  flat_map (fun e => match e with emailResult r => [r] | endEvent _ => [] end) o.

Definition is_end (e : SSE) : bool :=
  match e with endEvent _ => true | emailResult _ => false end.

(** ** Observations on the log *)

(** The operations a call issued: those logged between the world it was
    entered with and the world it left. *)
Definition issued (w w' : World) : list NetOp :=
  drop (length (netlog w)) (netlog w').

Definition is_lookup (op : NetOp) : bool :=
  match op with OpLookupMX _ => true | _ => false end.

(** Number of DNS lookups in a log. *)
Definition lookups (log : list NetOp) : nat := count_if is_lookup log.

(** The addresses dialled in a log, in order. *)
Definition dialled (log : list NetOp) : list string :=
  flat_map (fun op => match op with OpDial _ a => [a] | _ => [] end) log.

(** The same world with another cache. *)
Definition with_cache (c : gmap string mxCacheEntry) (w : World) : World :=
  {| mxCache := c; now := now w; netlog := netlog w |}.

(** ** The cache invariant *)

(** Every cached entry holds at least one host. *)
Definition cache_ok (c : gmap string mxCacheEntry) : Prop :=
  forall domain entry, c !! domain = Some entry -> records entry <> [].

(** A cached entry for [domain] that [getMXRecordsCached] would use. *)
Definition fresh_entry (domain : string) (w : World) : bool :=
  match mxCache w !! domain with
  | Some entry => (now w - timestamp entry <? mxCacheTTL)%Z
  | None => false
  end.

(** What the process can do to its state between two observations. *)
Inductive Action : Type :=
| ActResolve (domain : string)   (* a call of [getMXRecordsCached] *)
| ActProbe (email : string)      (* a call of [verifyEmailSMTP] *)
| ActElapse (d : N).             (* time passes *)

Definition exec (env : Env) (a : Action) (w : World) : World :=
  match a with
  | ActResolve domain => snd (getMXRecordsCached env domain w)
  | ActProbe email => snd (verifyEmailSMTP env email w)
  | ActElapse d => elapse d w
  end.

Definition exec_all (env : Env) (acts : list Action) (w : World) : World :=
  fold_left (fun w a => exec env a w) acts w.

(** ** The reasons a verdict can carry *)

(** The six failure reasons the specification lists. *)
Definition listed_reasons : list string :=
  [ "invalid email format"; "no valid MX records found";
    "SMTP connection failed"; "SMTP client initialization failed";
    "MAIL FROM command failed"; "RCPT TO command failed" ].

(** The failure reasons [verifyEmailSMTP] has: the listed ones and the
    one of its second lookup. *)
Definition failure_reasons : list string :=
  listed_reasons ++ [ "no MX records found" ].

(** What a verdict may say: a refusal carries one of the failure reasons,
    an acceptance the fixed text. *)
Definition verdict_ok (v : EmailResponse) : Prop :=
  (Valid v = false -> In (Message v) failure_reasons /\ Message v <> "") /\
  (Valid v = true -> Message v = "Email exists").

(** The verdict a goroutine holds before it has sent it. *)
Definition held_ok (w : Worker) : Prop :=
  match wpc w with
  | PLock res | PWrite res => verdict_ok res
  | _ => True
  end.

(** ** Sample environments *)

Definition sample_mx : list MX :=
  [ {| Host := "mx1.x.test"; Pref := 10 |};
    {| Host := "mx2.x.test"; Pref := 20 |} ].

(** Every oracle answers the same whatever was issued before; every
    operation takes one millisecond. *)
Definition constant_env (dns : list MX * error)
    (dial newClient hello mail rcpt : error) : Env :=
  {| net_LookupMX := fun _ _ => dns;
     net_Dial := fun _ _ _ => dial;
     smtp_NewClient := fun _ _ => newClient;
     client_Hello := fun _ _ => hello;
     client_Mail := fun _ _ => mail;
     client_Rcpt := fun _ _ => rcpt;
     latency := fun _ _ => 1000000%N |}.

(** A server that accepts every recipient. *)
Definition env_accept : Env :=
  constant_env (sample_mx, None) None None None None None.

(** A resolver that finds no MX record. *)
Definition env_no_mx : Env :=
  constant_env ([], None) None None None None None.

(** A resolver whose lookups fail. *)
Definition env_dns_error : Env :=
  constant_env ([], Some "lookup x.test: no such host") None None None None None.

(** A host that refuses connections. *)
Definition env_refused : Env :=
  constant_env (sample_mx, None) (Some "connection refused")
    None None None None.

(** A resolver that answers the first lookup of the process and finds
    nothing afterwards. *)
Definition env_flaky : Env :=
  {| net_LookupMX := fun issued_before _ =>
       if (lookups issued_before =? 0)%nat then (sample_mx, None)
       else ([], None);
     net_Dial := fun _ _ _ => None;
     smtp_NewClient := fun _ _ => None;
     client_Hello := fun _ _ => None;
     client_Mail := fun _ _ => None;
     client_Rcpt := fun _ _ => None;
     latency := fun _ _ => 1000000%N |}.

Definition w0 : World := initial_World 0.

(** A world whose cache holds an entry for [x.test] fetched at time 0,
    read [age] nanoseconds later. *)
Definition cached_world (age : Z) : World :=
  {| mxCache := {[ "x.test" := {| records := sample_mx; timestamp := 0 |} ]};
     now := age; netlog := [] |}.

(** ** The dispatcher's invariant *)

(** The addresses the main goroutine has still to start. *)
Definition pending (pc : MainPC) : list string :=
  match pc with
  | MRange rest => rest
  | MAcquire email rest | MGo email rest => email :: rest
  | MWait | MLock | MWrite | MDone => []
  end.

(** The token the main goroutine holds for the goroutine it is about to
    start, and its [wg.Add(1)] for it. *)
Definition main_token (pc : MainPC) : nat :=
  match pc with MGo _ _ => 1 | _ => 0 end.

Definition main_added (pc : MainPC) : nat :=
  match pc with MAcquire _ _ | MGo _ _ => 1 | _ => 0 end.

Definition main_writing (pc : MainPC) : nat :=
  match pc with MWrite => 1 | _ => 0 end.

Definition past_wait (pc : MainPC) : bool :=
  match pc with MLock | MWrite | MDone => true | _ => false end.

(** The terminal marker, once the main goroutine has sent it. *)
Definition end_sent (pc : MainPC) : list SSE :=
  match pc with MDone => [endEvent "All emails processed"] | _ => [] end.

Definition written_mail (w : Worker) : list string :=
  if has_written w then [wmail w] else [].

(** A verdict a goroutine holds is about its own address. *)
Definition own_verdict (w : Worker) : Prop :=
  match wpc w with
  | PLock res | PWrite res => Email res = wmail w
  | _ => True
  end.

Definition exited (w : Worker) : Prop := wpc w = PExit.

Record Inv (emails : list string) (s : State) : Prop :=
  { inv_sem : sem s = count_if holds_token (workers s) + main_token (main s);
    inv_limit : sem s <= concurrencyLimit;
    inv_wg : wg s = count_if live (workers s) + main_added (main s);
    inv_mutex : (if writeMutex s then 1 else 0) =
                count_if writing (workers s) + main_writing (main s);
    inv_emails : (map wmail (workers s) ++ pending (main s))%list = emails;
    inv_out : exists rs,
        out s = (map emailResult rs ++ end_sent (main s))%list /\
        Permutation (map Email rs) (flat_map written_mail (workers s));
    inv_own : Forall own_verdict (workers s);
    inv_joined : past_wait (main s) = true -> Forall exited (workers s) }.

(** Steps a goroutine has left, and the handler as a whole: every step
    takes one away. *)
Definition worker_steps (w : Worker) : nat :=
  match wpc w with
  | PProbe => 5 | PLock _ => 4 | PWrite _ => 3
  | PRelease => 2 | PWgDone => 1 | PExit => 0
  end.

Definition main_steps (pc : MainPC) : nat :=
  match pc with
  | MRange rest => 8 * length rest + 4
  | MAcquire _ rest => 8 * length rest + 11
  | MGo _ rest => 8 * length rest + 10
  | MWait => 3 | MLock => 2 | MWrite => 1 | MDone => 0
  end.

Fixpoint sum_steps (l : list Worker) : nat :=
  match l with
  | [] => 0
  | w :: l' => worker_steps w + sum_steps l'
  end.

Definition steps_left (s : State) : nat :=
  main_steps (main s) + sum_steps (workers s).

(** No thread can take a step. *)
Definition quiescent (env : Env) (s : State) : Prop :=
  forall t s', step env t s <> Stepped s'.

(** A schedule for a batch of eleven addresses that starts ten goroutines
    and brings the main goroutine to the eleventh [sem <-]. *)
Definition eleven : list string :=
  [ "a0@x.test"; "a1@x.test"; "a2@x.test"; "a3@x.test"; "a4@x.test";
    "a5@x.test"; "a6@x.test"; "a7@x.test"; "a8@x.test"; "a9@x.test";
    "a10@x.test" ].

Definition fill_pool : list Tid := replicate 31 TMain.

(** A whole execution for a batch of two. *)
Definition two : list string := [ "a@x.test"; "b@x.test" ].

Definition sched_two : list Tid :=
  [ TMain; TMain; TMain; TWorker 0; TMain; TMain; TMain;
    TWorker 1; TWorker 1; TWorker 1; TWorker 0; TWorker 0; TWorker 0;
    TWorker 0; TWorker 1; TWorker 1; TMain; TMain; TMain; TMain ].

(** ** The probe's dialogue *)

(** The results [verifyEmailSMTP] can return for [email], each with the
    operations issued on the way to it; [domain] is what follows the
    ['@'] and [host] the first host of the second lookup's answer. *)
Definition outcomes (email domain host : string)
  : list ((bool * error) * list NetOp) :=
  let resolved := [OpLookupMX domain; OpLookupMX domain] in
  let connected := resolved ++ [OpDial "tcp" (host ++ ":25")%string] in
  let greeted :=
    connected ++ [OpNewClient host; OpHello "localhost";
                  OpMail "check@yourdomain.com"] in
  [ ((false, Some "invalid email format"), []);
    ((false, Some "no valid MX records found"), [OpLookupMX domain]);
    ((false, Some "no MX records found"), resolved);
    ((false, Some "SMTP connection failed"), connected);
    ((false, Some "SMTP client initialization failed"),
     connected ++ [OpNewClient host; OpConnClose]);
    ((false, Some "MAIL FROM command failed"),
     greeted ++ [OpClientClose; OpConnClose]);
    ((false, Some "RCPT TO command failed"),
     greeted ++ [OpRcpt email; OpClientClose; OpConnClose]);
    ((true, None), greeted ++ [OpRcpt email; OpClientClose; OpConnClose]) ].

(** An environment whose answers do not depend on what was issued
    before: an unchanged remote side. *)
Definition stateless (env : Env) : Prop :=
  forall h h' : list NetOp,
    (forall d, net_LookupMX env h d = net_LookupMX env h' d) /\
    (forall n a, net_Dial env h n a = net_Dial env h' n a) /\
    (forall a, smtp_NewClient env h a = smtp_NewClient env h' a) /\
    (forall a, client_Mail env h a = client_Mail env h' a) /\
    (forall a, client_Rcpt env h a = client_Rcpt env h' a).

(** No cached entry is stamped later than the clock reads. *)
Definition cache_past (w : World) : Prop :=
  forall domain entry,
    mxCache w !! domain = Some entry -> (timestamp entry <= now w)%Z.

(** The handler's state when the goroutines of the first [k] addresses
    have been started and none has taken a step. *)
Definition started (emails : list string) (k : nat) (w : World) : State :=
  {| main := MRange (drop k emails);
     workers := map (fun e => {| wmail := e; wpc := PProbe |}) (take k emails);
     sem := k; wg := k; writeMutex := false; out := []; world := w |}.

(** A verdict a goroutine holds satisfies [P]. *)
Definition held (P : EmailResponse -> Prop) (w : Worker) : Prop :=
  match wpc w with
  | PLock res | PWrite res => P res
  | _ => True
  end.

(** ** The client of [net/smtp]

    [net/smtp] is Go's library, outside the repository.  What the probe
    gets back from [client.Hello], [client.Mail] and [client.Rcpt] is
    what the library makes of the server's replies.  Its [Client] keeps
    the outcome of the greeting: [hello()] runs the exchange once, [EHLO]
    and, when that is refused, [HELO], and stores the error in
    [helloError]; [Hello] returns it; [Mail] calls [hello()] first and
    returns its error without sending [MAIL FROM]; [Rcpt] sends
    [RCPT TO].  Each of the three first refuses a line with CR or LF. *)

(** The server's replies to the commands of the dialogue; [None] is an
    accepting reply.  Like the oracles of [Env], each sees the
    operations issued before. *)
Record Server : Type :=
  { srv_EHLO : list NetOp -> string -> error;
    srv_HELO : list NetOp -> string -> error;
    srv_MAIL : list NetOp -> string -> error;
    srv_RCPT : list NetOp -> string -> error }.

(** [validateLine] *)
Fixpoint has_CRLF (line : string) : bool :=
  match line with
  | EmptyString => false
  | String c rest =>
      Ascii.eqb c "010"%char || Ascii.eqb c "013"%char || has_CRLF rest
  end.

Definition validateLine (line : string) : error :=
  if has_CRLF line then Some "smtp: A line must not contain CR or LF"
  else None.

(** The greeting exchange of [hello()]: [EHLO], then [HELO] when [EHLO]
    is refused; its error is the one of [HELO]. *)
Definition greeting (srv : Server) (h : list NetOp) (localName : string)
  : error :=
  match srv_EHLO srv h localName with
  | None => None
  | Some _ => srv_HELO srv h localName
  end.

(** [didHello] and [helloError] of the client in use, read off the calls
    made so far, newest first: [None] while no greeting has been
    exchanged, [Some e] once it has, with its outcome [e].  [NewClient]
    gives a client that has not greeted; the first valid [Hello] or
    [Mail] on it runs the exchange, [Mail] under the client's default
    name ["localhost"]; later calls leave the outcome as it is. *)
Fixpoint helloError_of (srv : Server) (newest_first : list NetOp)
  : option error :=
  match newest_first with
  | [] => None
  | OpNewClient _ :: _ => None
  | OpHello localName :: older =>
      match helloError_of srv older with
      | Some e => Some e
      | None => if has_CRLF localName then None
                else Some (greeting srv (rev older) localName)
      end
  | OpMail from :: older =>
      match helloError_of srv older with
      | Some e => Some e
      | None => if has_CRLF from then None
                else Some (greeting srv (rev older) "localhost")
      end
  | _ :: older => helloError_of srv older
  end.

Definition helloError (srv : Server) (h : list NetOp) : option error :=
  helloError_of srv (rev h).

(** [Client.Hello] *)
Definition smtp_Hello (srv : Server) (h : list NetOp) (localName : string)
  : error :=
  match validateLine localName with
  | Some e => Some e
  | None =>
      match helloError srv h with
      | Some _ => Some "smtp: Hello called after other methods"
      | None => greeting srv h localName
      end
  end.

(** [Client.Mail] *)
Definition smtp_Mail (srv : Server) (h : list NetOp) (from : string) : error :=
  match validateLine from with
  | Some e => Some e
  | None =>
      match match helloError srv h with
            | Some e => e
            | None => greeting srv h "localhost"
            end with
      | Some e => Some e
      | None => srv_MAIL srv h from
      end
  end.

(** [Client.Rcpt] *)
Definition smtp_Rcpt (srv : Server) (h : list NetOp) (to : string) : error :=
  match validateLine to with
  | Some e => Some e
  | None => srv_RCPT srv h to
  end.

(** The environment in which the SMTP calls are those of the library's
    client talking to [srv]; resolver, dial, client creation and timing
    are those of [base]. *)
Definition smtp_env (base : Env) (srv : Server) : Env :=
  {| net_LookupMX := net_LookupMX base;
     net_Dial := net_Dial base;
     smtp_NewClient := smtp_NewClient base;
     client_Hello := smtp_Hello srv;
     client_Mail := smtp_Mail srv;
     client_Rcpt := smtp_Rcpt srv;
     latency := latency base |}.

(** A server that accepts everything, and one that refuses the greeting
    and would accept everything else. *)
Definition srv_accept : Server :=
  {| srv_EHLO := fun _ _ => None; srv_HELO := fun _ _ => None;
     srv_MAIL := fun _ _ => None; srv_RCPT := fun _ _ => None |}.

Definition srv_no_greeting : Server :=
  {| srv_EHLO := fun _ _ => Some "502 command not implemented";
     srv_HELO := fun _ _ => Some "550 access denied";
     srv_MAIL := fun _ _ => None; srv_RCPT := fun _ _ => None |}.

(** A server that knows [HELO] only: it refuses [EHLO], accepts the
    [HELO] that follows and everything else. *)
Definition srv_helo_only : Server :=
  {| srv_EHLO := fun _ _ => Some "500 unrecognised command";
     srv_HELO := fun _ _ => None;
     srv_MAIL := fun _ _ => None; srv_RCPT := fun _ _ => None |}.

(** ** Proof automation for the probe *)

(** Unfold the probe down to the oracles' answers and split on them. *)
Ltac probe_unfold :=
  unfold checkEmail, verifyEmailSMTP, checkMXRecords, getMXRecordsCached,
    mxCache_load, mxCache_store, time_Since, time_Now,
    defer, LookupMX, Dial, NewClient, Hello, Mail, Rcpt, perform, gets,
    bind, ret.

Ltac probe_cases :=
  repeat
    (simpl;
     match goal with
     | |- context [net_LookupMX ?e ?h ?d] =>
         destruct (net_LookupMX e h d) as [[|? ?] [?|]] eqn:?
     | |- context [net_Dial ?e ?h ?n ?a] => destruct (net_Dial e h n a) eqn:?
     | |- context [smtp_NewClient ?e ?h ?a] =>
         destruct (smtp_NewClient e h a) eqn:?
     | |- context [client_Mail ?e ?h ?a] => destruct (client_Mail e h a) eqn:?
     | |- context [client_Rcpt ?e ?h ?a] => destruct (client_Rcpt e h a) eqn:?
     | |- context [(?n =? 2)%nat] => destruct (n =? 2)%nat eqn:?
     end);
  simpl.

(** * Properties *)

(** ** Splitting an address *)

Lemma strings_Split_length s sep :
  length (strings_Split s sep) = S (strings_Count s sep).
Proof.
  induction s as [|c rest IH]; simpl; [reflexivity|].
  destruct (Ascii.eqb c sep); simpl; [now rewrite IH|].
  destruct (strings_Split rest sep); simpl in *; [discriminate|exact IH].
Qed.

Lemma strings_Split_two email :
  strings_Count email at_sign = 1 ->
  exists localPart domain, strings_Split email at_sign = [localPart; domain].
Proof.
  intros Hc. pose proof (strings_Split_length email at_sign) as Hl.
  rewrite Hc in Hl.
  destruct (strings_Split email at_sign) as [|a [|b [|? ?]]]; try discriminate.
  now exists a, b.
Qed.

(** ** The probe *)

Lemma response_Email mail r : Email (response mail r) = mail.
Proof. unfold response. now destruct (snd r). Qed.

(** The probe on another cache: the same result, and the same resulting
    world but for the cache, which it hands back as it got it. *)
Lemma verifyEmailSMTP_with_cache env email w c :
  verifyEmailSMTP env email (with_cache c w) =
  (fst (verifyEmailSMTP env email w),
   with_cache c (snd (verifyEmailSMTP env email w))).
Proof.
  probe_unfold. unfold with_cache. probe_cases; reflexivity.
Qed.

Lemma verifyEmailSMTP_mxCache env email w :
  mxCache (snd (verifyEmailSMTP env email w)) = mxCache w.
Proof. probe_unfold. probe_cases; reflexivity. Qed.

(** A well-formed address always costs a lookup first. *)
Lemma verifyEmailSMTP_first_lookup env email localPart domain w :
  strings_Split email at_sign = [localPart; domain] ->
  take 1 (issued w (snd (verifyEmailSMTP env email w))) = [OpLookupMX domain].
Proof.
  intros Hs. unfold issued. probe_unfold. rewrite Hs.
  probe_cases;
    repeat rewrite <- app_assoc; rewrite drop_app_length; reflexivity.
Qed.

(** The reason of a failed probe is one of [failure_reasons]; a probe
    that does not fail reports acceptance. *)
Lemma verifyEmailSMTP_result env email w :
  fst (verifyEmailSMTP env email w) = (true, None) \/
  exists msg, fst (verifyEmailSMTP env email w) = (false, Some msg) /\
              In msg failure_reasons.
Proof.
  probe_unfold.
  probe_cases; first [ now left | right; eexists; split; [reflexivity|]; simpl; tauto ].
Qed.

(** C2.  An address in which ['@'] does not occur exactly once is split
    into a number of parts other than two; the probe then answers
    [false] with the error "invalid email format", the verdict is
    [Valid = false] with that text, and the world is handed back
    untouched: no DNS lookup and no other network operation was issued. *)
Theorem C2_invalid_format env email w :
  strings_Count email at_sign <> 1 ->
  length (strings_Split email at_sign) <> 2 /\
  verifyEmailSMTP env email w = ((false, Some "invalid email format"), w) /\
  checkEmail env email w =
    ({| Email := email; Valid := false; Message := "invalid email format" |},
     w) /\
  issued w (snd (verifyEmailSMTP env email w)) = [].
Proof.
  intros Hc.
  assert (Hl : length (strings_Split email at_sign) <> 2)
    by (rewrite strings_Split_length; lia).
  assert (Hv : verifyEmailSMTP env email w =
               ((false, Some "invalid email format"), w)).
  { unfold verifyEmailSMTP.
    destruct (Nat.eqb_spec (length (strings_Split email at_sign)) 2);
      [contradiction|reflexivity]. }
  repeat split; [exact Hl|exact Hv| |].
  - unfold checkEmail, bind. now rewrite Hv.
  - rewrite Hv. unfold issued. simpl. apply drop_all.
Qed.

Lemma C2_invalid_format_witness :
  strings_Count "not-an-email" at_sign <> 1 /\
  checkEmail env_accept "not-an-email" w0 =
    ({| Email := "not-an-email"; Valid := false;
        Message := "invalid email format" |}, w0).
Proof.
  split; [simpl; lia|].
  apply (C2_invalid_format env_accept "not-an-email" w0). simpl. lia.
Defined.

(** C3 as stated fails: for [user@x.test] a resolver whose lookup fails
    and a resolver that finds no record give verdicts with the same
    reason, so the two failure kinds are not told apart. *)
Lemma C3_counterexample :
  let v_error := fst (checkEmail env_dns_error "user@x.test" w0) in
  let v_empty := fst (checkEmail env_no_mx "user@x.test" w0) in
  is_err (snd (net_LookupMX env_dns_error [] "x.test")) = true /\
  net_LookupMX env_no_mx [] "x.test" = ([], None) /\
  ~ (Valid v_error = false /\ Valid v_empty = false /\
     Message v_error <> Message v_empty).
Proof.
  simpl. repeat split. intros (_ & _ & Hne). now apply Hne.
Qed.

(** C3, amended.  When the probe's first lookup for the domain of a
    well-formed address fails with an error, and when it returns no
    record, the verdict is [Valid = false] with one and the same reason,
    "no valid MX records found". *)
Theorem C3_lookup_failures_same_reason
    env_error env_empty email localPart domain w1 w2 recs msg :
  strings_Split email at_sign = [localPart; domain] ->
  net_LookupMX env_error (netlog w1) domain = (recs, Some msg) ->
  net_LookupMX env_empty (netlog w2) domain = ([], None) ->
  fst (checkEmail env_error email w1) =
    {| Email := email; Valid := false;
       Message := "no valid MX records found" |} /\
  fst (checkEmail env_empty email w2) =
    {| Email := email; Valid := false;
       Message := "no valid MX records found" |}.
Proof.
  intros Hs He Hn. probe_unfold. rewrite Hs. simpl.
  rewrite He, Hn. simpl. split; reflexivity.
Qed.

Lemma C3_lookup_failures_same_reason_witness :
  Message (fst (checkEmail env_dns_error "user@x.test" w0)) =
    "no valid MX records found" /\
  Message (fst (checkEmail env_no_mx "user@x.test" w0)) =
    "no valid MX records found".
Proof.
  destruct (C3_lookup_failures_same_reason env_dns_error env_no_mx
              "user@x.test" "user" "x.test" w0 w0 []
              "lookup x.test: no such host"
              eq_refl eq_refl eq_refl) as [H1 H2].
  rewrite H1, H2. split; reflexivity.
Defined.

(** The verdict built from any result of the probe. *)
Lemma response_ok env mail w :
  verdict_ok (response mail (fst (verifyEmailSMTP env mail w))).
Proof.
  destruct (verifyEmailSMTP_result env mail w) as [->|(msg & -> & Hin)];
    unfold verdict_ok, response; simpl.
  - split; [discriminate|reflexivity].
  - split; [|discriminate]. intros _. split; [exact Hin|].
    simpl in Hin. intuition (subst; discriminate).
Qed.

(** The batch path: a step of the handler or of one of its goroutines
    leaves the cache as it is, and keeps the verdicts well-formed. *)
Lemma step_mxCache env t s s' :
  step env t s = Stepped s' -> mxCache (world s') = mxCache (world s).
Proof.
  destruct t as [|i]; simpl.
  - unfold step_main.
    destruct (main s) as [[|email rest]|email rest|email rest| | | |]; simpl;
      repeat match goal with
        | |- context [if ?b then _ else _] => destruct b
        end;
      try discriminate; now intros [= <-].
  - unfold step_worker. destruct (workers s !! i) as [[mail pc]|]; [|discriminate].
    destruct pc; simpl.
    + pose proof (verifyEmailSMTP_mxCache env mail (world s)) as Hc.
      destruct (verifyEmailSMTP env mail (world s)). now intros [= <-].
    + destruct (writeMutex s); [discriminate|now intros [= <-]].
    + now intros [= <-].
    + destruct (sem s); [discriminate|now intros [= <-]].
    + destruct (wg s); [discriminate|now intros [= <-]].
    + discriminate.
Qed.

Lemma run_mxCache env sched s s' :
  run env sched s = Some s' -> mxCache (world s') = mxCache (world s).
Proof.
  revert s. induction sched as [|t sched IH]; simpl; intros s.
  - now intros [= <-].
  - destruct (step env t s) as [s1| | |] eqn:Hs; try discriminate.
    intros Hr. rewrite (IH _ Hr). exact (step_mxCache _ _ _ _ Hs).
Qed.

Lemma step_verdicts_ok env t s s' :
  Forall verdict_ok (verdicts (out s)) /\ Forall held_ok (workers s) ->
  step env t s = Stepped s' ->
  Forall verdict_ok (verdicts (out s')) /\ Forall held_ok (workers s').
Proof.
  intros [Ho Hw]. destruct t as [|i]; simpl.
  - unfold step_main.
    destruct (main s) as [[|email rest]|email rest|email rest| | | |]; simpl;
      repeat match goal with
        | |- context [if ?b then _ else _] => destruct b
        end;
      try discriminate; intros [= <-]; simpl; auto.
    + split; [exact Ho|]. apply Forall_app. split; [exact Hw|].
      repeat constructor.
    + split; [|exact Hw]. unfold verdicts. rewrite flat_map_app. simpl.
      now rewrite app_nil_r.
  - unfold step_worker.
    destruct (workers s !! i) as [[mail pc]|] eqn:Hi; [|discriminate].
    pose proof (Forall_lookup_1 _ _ _ _ Hw Hi) as Hheld.
    unfold held_ok in Hheld. simpl in Hheld.
    destruct pc as [|res|res| | |]; simpl.
    + pose proof (response_ok env mail (world s)) as Hr.
      destruct (verifyEmailSMTP env mail (world s)) as [r world'].
      intros [= <-]. simpl. split; [exact Ho|]. now apply Forall_insert.
    + destruct (writeMutex s); [discriminate|]. intros [= <-]. simpl.
      split; [exact Ho|]. now apply Forall_insert.
    + intros [= <-]. simpl. split; [|now apply Forall_insert].
      unfold verdicts. rewrite flat_map_app. simpl.
      apply Forall_app. split; [exact Ho|].
      constructor; [exact Hheld|constructor].
    + destruct (sem s); [discriminate|]. intros [= <-]. simpl.
      split; [exact Ho|]. now apply Forall_insert.
    + destruct (wg s); [discriminate|]. intros [= <-]. simpl.
      split; [exact Ho|]. now apply Forall_insert.
    + discriminate.
Qed.

Lemma run_verdicts_ok env sched s s' :
  Forall verdict_ok (verdicts (out s)) /\ Forall held_ok (workers s) ->
  run env sched s = Some s' ->
  Forall verdict_ok (verdicts (out s')).
Proof.
  revert s. induction sched as [|t sched IH]; simpl; intros s H.
  - intros [= <-]. apply H.
  - destruct (step env t s) as [s1| | |] eqn:Hs; try discriminate.
    apply IH. exact (step_verdicts_ok _ _ _ _ H Hs).
Qed.

(** C5.  The probe neither reads nor writes [mxCache]: started on any
    other cache it returns the same result, issues the same network
    operations and reads the same clock; the cache it leaves is the one
    it found; for a well-formed address its first operation is a DNS
    lookup of the domain, whatever the cache holds; and on the batch path
    too the cache is, at every point of every execution of the handler,
    the one the handler was entered with. *)
Theorem C5_probe_ignores_cache env email w c :
  fst (verifyEmailSMTP env email (with_cache c w)) =
    fst (verifyEmailSMTP env email w) /\
  netlog (snd (verifyEmailSMTP env email (with_cache c w))) =
    netlog (snd (verifyEmailSMTP env email w)) /\
  now (snd (verifyEmailSMTP env email (with_cache c w))) =
    now (snd (verifyEmailSMTP env email w)) /\
  mxCache (snd (verifyEmailSMTP env email w)) = mxCache w /\
  (forall localPart domain,
     strings_Split email at_sign = [localPart; domain] ->
     take 1 (issued w (snd (verifyEmailSMTP env email w))) =
       [OpLookupMX domain]) /\
  (forall emails sched s,
     run env sched (initial_State emails w) = Some s ->
     mxCache (world s) = mxCache w).
Proof.
  rewrite verifyEmailSMTP_with_cache. simpl.
  repeat split; auto using verifyEmailSMTP_mxCache.
  - intros ? ?. apply verifyEmailSMTP_first_lookup.
  - intros emails sched s Hrun. now rewrite (run_mxCache _ _ _ _ Hrun).
Qed.

Lemma C5_probe_ignores_cache_witness :
  fresh_entry "x.test" (cached_world 5) = true /\
  take 1 (issued (cached_world 5)
            (snd (verifyEmailSMTP env_accept "a@x.test" (cached_world 5)))) =
    [OpLookupMX "x.test"] /\
  exists s,
    run env_accept sched_two (initial_State two (cached_world 5)) = Some s /\
    mxCache (world s) = mxCache (cached_world 5).
Proof.
  pose proof (C5_probe_ignores_cache env_accept "a@x.test" (cached_world 5) ∅)
    as (_ & _ & _ & _ & Hfirst & Hbatch).
  split; [reflexivity|]. split; [exact (Hfirst "a" "x.test" eq_refl)|].
  destruct (run env_accept sched_two (initial_State two (cached_world 5)))
    as [s|] eqn:Hrun; [|vm_compute in Hrun; discriminate].
  exists s. split; [reflexivity|]. exact (Hbatch two sched_two s Hrun).
Defined.

(** C7 as stated fails: when the probe's second lookup finds no record
    the verdict is [Valid = false] with the reason "no MX records found",
    which is none of the six listed. *)
Lemma C7_counterexample :
  let v := fst (checkEmail env_flaky "a@x.test" w0) in
  Valid v = false /\ Message v = "no MX records found" /\
  ~ In (Message v) listed_reasons.
Proof.
  simpl. repeat split. intros H.
  repeat (destruct H as [H|H]; [discriminate H|]). exact H.
Qed.

(** C7, amended.  Every verdict carries the address it is about; when
    [Valid] is false its reason is non-empty and is one of the six listed
    failure strings or "no MX records found"; when [Valid] is true its
    reason is "Email exists".  This holds of the verdict of the
    single-address handler and of every verdict the batch handler has
    sent, at every point of every execution. *)
Theorem C7_verdict_reasons env w :
  (forall email,
     let v := fst (checkEmail env email w) in
     Email v = email /\
     (Valid v = false -> In (Message v) failure_reasons /\ Message v <> "") /\
     (Valid v = true -> Message v = "Email exists")) /\
  (forall emails sched s v,
     run env sched (initial_State emails w) = Some s ->
     In v (verdicts (out s)) ->
     (Valid v = false -> In (Message v) failure_reasons /\ Message v <> "") /\
     (Valid v = true -> Message v = "Email exists")).
Proof.
  split.
  - intros email. unfold checkEmail, bind, ret.
    pose proof (response_ok env email w) as Hok.
    destruct (verifyEmailSMTP env email w) as [r w']. simpl in *.
    split; [apply response_Email|exact Hok].
  - intros emails sched s v Hrun Hin.
    assert (Hall : Forall verdict_ok (verdicts (out s))).
    { apply (run_verdicts_ok env sched (initial_State emails w) s);
        [split; constructor|exact Hrun]. }
    rewrite Forall_forall in Hall. apply Hall.
    now apply list_elem_of_In.
Qed.

Lemma C7_verdict_reasons_witness :
  Valid (fst (checkEmail env_accept "a@x.test" w0)) = true /\
  Message (fst (checkEmail env_accept "a@x.test" w0)) = "Email exists" /\
  Valid (fst (checkEmail env_refused "a@x.test" w0)) = false /\
  In (Message (fst (checkEmail env_refused "a@x.test" w0))) failure_reasons.
Proof.
  split; [reflexivity|]. split.
  - apply (proj1 (C7_verdict_reasons env_accept w0) "a@x.test"). reflexivity.
  - split; [reflexivity|].
    apply (proj1 (C7_verdict_reasons env_refused w0) "a@x.test"). reflexivity.
Defined.

(** C8.  For a well-formed address whose domain resolves (the first
    lookup returns records without an error, the second returns the
    sequence [mx0 :: others]), the probe dials ["tcp"] at port 25 of
    [Host mx0], the host at index 0, and dials nothing else during the
    whole call; if that dial fails the result is [false] with "SMTP
    connection failed" and the dial is the last operation issued. *)
Theorem C8_first_host_only
    env email localPart domain w first mx0 others err2 :
  strings_Split email at_sign = [localPart; domain] ->
  net_LookupMX env (netlog w) domain = (first, None) ->
  first <> [] ->
  net_LookupMX env (netlog w ++ [OpLookupMX domain]) domain =
    (mx0 :: others, err2) ->
  let r := fst (verifyEmailSMTP env email w) in
  let ops := issued w (snd (verifyEmailSMTP env email w)) in
  take 3 ops = [OpLookupMX domain; OpLookupMX domain;
                OpDial "tcp" (Host mx0 ++ ":25")%string] /\
  dialled ops = [(Host mx0 ++ ":25")%string] /\
  (is_err (net_Dial env (netlog w ++ [OpLookupMX domain; OpLookupMX domain])
             "tcp" (Host mx0 ++ ":25")%string) = true ->
   r = (false, Some "SMTP connection failed") /\
   ops = [OpLookupMX domain; OpLookupMX domain;
          OpDial "tcp" (Host mx0 ++ ":25")%string] /\
   Valid (response email r) = false /\
   Message (response email r) = "SMTP connection failed").
Proof.
  intros Hs H1 Hne H2. unfold issued. probe_unfold. rewrite Hs. simpl.
  rewrite H1. destruct first as [|m1 first']; [contradiction|]. simpl.
  rewrite H2. simpl.
  replace ((netlog w ++ [OpLookupMX domain]) ++ [OpLookupMX domain])%list
    with (netlog w ++ [OpLookupMX domain; OpLookupMX domain])%list
    by now rewrite <- app_assoc.
  probe_cases;
    repeat rewrite <- app_assoc; simpl; rewrite drop_app_length;
    repeat split; try reflexivity; try discriminate.
Qed.

Lemma C8_first_host_only_witness :
  dialled (issued w0 (snd (verifyEmailSMTP env_refused "a@x.test" w0))) =
    ["mx1.x.test:25"] /\
  fst (verifyEmailSMTP env_refused "a@x.test" w0) =
    (false, Some "SMTP connection failed").
Proof.
  destruct (C8_first_host_only env_refused "a@x.test" "a" "x.test" w0
              sample_mx {| Host := "mx1.x.test"; Pref := 10 |}
              [ {| Host := "mx2.x.test"; Pref := 20 |} ] None
              eq_refl eq_refl ltac:(discriminate) eq_refl)
    as (_ & Hd & Hf).
  split; [exact Hd|]. exact (proj1 (Hf eq_refl)).
Defined.

(** ** The greeting *)

(** The probe's result and final state depend on what [Mail] and [Rcpt]
    return only through whether they return an error, and not at all on
    what [Hello] returns. *)
Lemma verifyEmailSMTP_ext e1 e2 email w :
  (forall h d, net_LookupMX e1 h d = net_LookupMX e2 h d) ->
  (forall h n a, net_Dial e1 h n a = net_Dial e2 h n a) ->
  (forall h a, smtp_NewClient e1 h a = smtp_NewClient e2 h a) ->
  (forall h op, latency e1 h op = latency e2 h op) ->
  (forall h x a,
     is_err (client_Mail e1 ((h ++ [OpNewClient x]) ++ [OpHello "localhost"]) a) =
     is_err (client_Mail e2 ((h ++ [OpNewClient x]) ++ [OpHello "localhost"]) a)) ->
  (forall h a, is_err (client_Rcpt e1 h a) = is_err (client_Rcpt e2 h a)) ->
  verifyEmailSMTP e1 email w = verifyEmailSMTP e2 email w.
Proof.
  intros HL HD HN HT HM HR. probe_unfold.
  repeat
    (simpl;
     match goal with
     | |- context [net_LookupMX e1 ?h ?d] => rewrite (HL h d)
     | |- context [net_Dial e1 ?h ?n ?a] => rewrite (HD h n a)
     | |- context [smtp_NewClient e1 ?h ?a] => rewrite (HN h a)
     | |- context [latency e1 ?h ?op] => rewrite (HT h op)
     | |- context [net_LookupMX e2 ?h ?d] =>
         destruct (net_LookupMX e2 h d) as [[|? ?] [?|]] eqn:?
     | |- context [net_Dial e2 ?h ?n ?a] => destruct (net_Dial e2 h n a) eqn:?
     | |- context [smtp_NewClient e2 ?h ?a] =>
         destruct (smtp_NewClient e2 h a) eqn:?
     | |- context [client_Mail e1 ((?h ++ [OpNewClient ?x]) ++ ?hello) ?a] =>
         let H := fresh in
         pose proof (HM h x a) as H;
         destruct (client_Mail e1 ((h ++ [OpNewClient x]) ++ hello) a),
                  (client_Mail e2 ((h ++ [OpNewClient x]) ++ hello) a);
         simpl in H; try discriminate H; clear H
     | |- context [client_Rcpt e1 ?h ?a] =>
         let H := fresh in
         pose proof (HR h a) as H;
         destruct (client_Rcpt e1 h a), (client_Rcpt e2 h a);
         simpl in H; try discriminate H; clear H
     | |- context [(?n =? 2)%nat] => destruct (n =? 2)%nat eqn:?
     end);
    reflexivity.
Qed.

(** On a client that has just been created, [Hello] runs the greeting
    exchange and the client keeps its outcome. *)
Lemma helloError_greeted srv h x localName :
  has_CRLF localName = false ->
  helloError srv ((h ++ [OpNewClient x]) ++ [OpHello localName]) =
    Some (greeting srv (h ++ [OpNewClient x]) localName).
Proof.
  intros Hv. unfold helloError. rewrite !rev_app_distr. simpl. rewrite Hv.
  now rewrite rev_involutive.
Qed.

(** What [Mail] returns right after that [Hello]: the error of the
    greeting when it was refused, else the server's reply to
    [MAIL FROM]. *)
Lemma smtp_Mail_greeted srv h x from :
  smtp_Mail srv ((h ++ [OpNewClient x]) ++ [OpHello "localhost"]) from =
    match validateLine from with
    | Some e => Some e
    | None =>
        match greeting srv (h ++ [OpNewClient x]) "localhost" with
        | Some e => Some e
        | None =>
            srv_MAIL srv ((h ++ [OpNewClient x]) ++ [OpHello "localhost"]) from
        end
    end.
Proof.
  unfold smtp_Mail. now rewrite helloError_greeted.
Qed.

(** C9 as stated fails.  Two servers that differ only in their replies
    to the greeting, one accepting [EHLO], the other refusing [EHLO] and
    [HELO], both accepting [MAIL FROM] and [RCPT TO]: the probe of
    [a@x.test] accepts with the first and answers "MAIL FROM command
    failed" with the second, and [RCPT TO] is issued to the first only. *)
Lemma C9_counterexample :
  let run1 := verifyEmailSMTP (smtp_env env_accept srv_accept) "a@x.test" w0 in
  let run2 :=
    verifyEmailSMTP (smtp_env env_accept srv_no_greeting) "a@x.test" w0 in
  srv_MAIL srv_accept = srv_MAIL srv_no_greeting /\
  srv_RCPT srv_accept = srv_RCPT srv_no_greeting /\
  fst run1 = (true, None) /\
  fst run2 = (false, Some "MAIL FROM command failed") /\
  In (OpRcpt "a@x.test") (netlog (snd run1)) /\
  ~ In (OpRcpt "a@x.test") (netlog (snd run2)) /\
  ~ (response "a@x.test" (fst run1) = response "a@x.test" (fst run2)).
Proof.
  vm_compute. repeat split; try discriminate.
  - do 6 right. now left.
  - intros H. repeat (destruct H as [H|H]; [discriminate H|]). exact H.
Qed.

(** C9, amended.  The probe does not look at what [Hello] returns and
    calls [Mail] whatever it was, but the outcome of the greeting reaches
    the verdict through the library.  (a) Two servers whose greeting has
    the same outcome, accepted by both or refused by both, and whose
    replies to [MAIL FROM] and [RCPT TO] are the same, give the same
    result, the same operations and the same final state, hence the same
    verdict.  (b) With a server that refuses the greeting the probe never
    accepts and never issues [RCPT TO]; when it gets as far as [HELO] it
    still calls [Mail], and its result is "MAIL FROM command failed". *)
Theorem C9_hello_outcome base srv1 srv2 email w :
  ((forall h n, is_err (greeting srv1 h n) = is_err (greeting srv2 h n)) ->
   (forall h a, srv_MAIL srv1 h a = srv_MAIL srv2 h a) ->
   (forall h a, srv_RCPT srv1 h a = srv_RCPT srv2 h a) ->
   verifyEmailSMTP (smtp_env base srv1) email w =
     verifyEmailSMTP (smtp_env base srv2) email w /\
   checkEmail (smtp_env base srv1) email w =
     checkEmail (smtp_env base srv2) email w) /\
  ((forall h n, is_err (greeting srv1 h n) = true) ->
   let r := fst (verifyEmailSMTP (smtp_env base srv1) email w) in
   let ops := issued w (snd (verifyEmailSMTP (smtp_env base srv1) email w)) in
   r <> (true, None) /\
   (forall a, ~ In (OpRcpt a) ops) /\
   (In (OpHello "localhost") ops ->
    r = (false, Some "MAIL FROM command failed") /\
    In (OpMail "check@yourdomain.com") ops)).
Proof.
  split.
  - intros Hg HM HR.
    assert (H : verifyEmailSMTP (smtp_env base srv1) email w =
                verifyEmailSMTP (smtp_env base srv2) email w).
    { apply verifyEmailSMTP_ext; try reflexivity; simpl.
      - intros h x a. rewrite !smtp_Mail_greeted.
        destruct (validateLine a); [reflexivity|].
        specialize (Hg (h ++ [OpNewClient x]) "localhost").
        destruct (greeting srv1 (h ++ [OpNewClient x]) "localhost"),
                 (greeting srv2 (h ++ [OpNewClient x]) "localhost");
          try discriminate Hg; try reflexivity.
        now rewrite HM.
      - intros h a. unfold smtp_Rcpt.
        destruct (validateLine a); [reflexivity|]. now rewrite HR. }
    split; [exact H|]. unfold checkEmail, bind. now rewrite H.
  - intros Hrej.
    set (refusing :=
           {| net_LookupMX := net_LookupMX base; net_Dial := net_Dial base;
              smtp_NewClient := smtp_NewClient base;
              client_Hello := smtp_Hello srv1;
              client_Mail := fun _ _ => Some "greeting refused";
              client_Rcpt := smtp_Rcpt srv1;
              latency := latency base |}).
    rewrite (verifyEmailSMTP_ext (smtp_env base srv1) refusing email w);
      try reflexivity.
    + unfold issued. probe_unfold. unfold refusing.
      probe_cases;
        repeat rewrite <- app_assoc; simpl;
        rewrite ?drop_app_length, ?drop_all; simpl;
        (split; [discriminate|]);
        (split; [intros a Hin; simpl in Hin; intuition discriminate|]);
        intros Hin;
        first [ split; [reflexivity|simpl; auto 10]
              | exfalso; simpl in Hin; intuition discriminate ].
    + intros h x a. simpl. rewrite smtp_Mail_greeted.
      destruct (validateLine a); [reflexivity|].
      specialize (Hrej (h ++ [OpNewClient x]) "localhost").
      now destruct (greeting srv1 (h ++ [OpNewClient x]) "localhost").
Qed.

Lemma greeting_refused h n : is_err (greeting srv_no_greeting h n) = true.
Proof. reflexivity. Qed.

Lemma C9_hello_outcome_witness :
  fst (verifyEmailSMTP (smtp_env env_accept srv_no_greeting) "a@x.test" w0) =
    (false, Some "MAIL FROM command failed") /\
  In (OpMail "check@yourdomain.com")
    (issued w0
       (snd (verifyEmailSMTP (smtp_env env_accept srv_no_greeting)
               "a@x.test" w0))) /\
  checkEmail (smtp_env env_accept srv_accept) "a@x.test" w0 =
    checkEmail (smtp_env env_accept srv_helo_only) "a@x.test" w0.
Proof.
  pose proof (C9_hello_outcome env_accept srv_no_greeting srv_accept
                "a@x.test" w0) as [_ Hrej].
  destruct (Hrej greeting_refused) as (_ & _ & Hhello).
  pose proof (C9_hello_outcome env_accept srv_accept srv_helo_only
                "a@x.test" w0) as [Hsame _].
  split; [|split].
  - apply Hhello. vm_compute. do 4 right. now left.
  - apply Hhello. vm_compute. do 4 right. now left.
  - apply Hsame; reflexivity.
Defined.

(** ** The cached resolver *)

(** With a fresh entry the call is answered from the cache and changes
    nothing. *)
Lemma getMXRecordsCached_hit env domain w entry :
  mxCache w !! domain = Some entry ->
  (now w - timestamp entry < mxCacheTTL)%Z ->
  getMXRecordsCached env domain w = ((records entry, None), w).
Proof.
  intros He Ht. probe_unfold. rewrite He. simpl.
  destruct (Z.ltb_spec (now w - timestamp entry) mxCacheTTL); [reflexivity|lia].
Qed.

(** Without one the call issues exactly one lookup, and writes the cache
    only when the lookup returns records and no error. *)
Lemma getMXRecordsCached_miss env domain w :
  fresh_entry domain w = false ->
  getMXRecordsCached env domain w =
    let w1 := snd (perform env (OpLookupMX domain) w) in
    match net_LookupMX env (netlog w) domain with
    | (_, Some msg) => (([], Some msg), w1)
    | ([], None) => (([], Some "no MX records found"), w1)
    | (recs, None) =>
        ((recs, None),
         with_cache
           (<[domain := {| records := recs; timestamp := now w1 |}]> (mxCache w))
           w1)
    end.
Proof.
  unfold fresh_entry. intros Hf. probe_unfold.
  destruct (mxCache w !! domain) as [entry|]; simpl; [rewrite Hf|];
    simpl; destruct (net_LookupMX env (netlog w) domain) as [[|? ?] [?|]];
    reflexivity.
Qed.

Lemma fresh_entry_true domain w :
  fresh_entry domain w = true ->
  exists entry, mxCache w !! domain = Some entry /\
                (now w - timestamp entry < mxCacheTTL)%Z.
Proof.
  unfold fresh_entry. destruct (mxCache w !! domain) as [entry|]; [|discriminate].
  intros H. exists entry. split; [reflexivity|]. now apply Z.ltb_lt.
Qed.

(** A call that returns hosts leaves an entry with these hosts, not older
    than the call's own clock reading allows. *)
Lemma getMXRecordsCached_success env domain w hosts w1 :
  getMXRecordsCached env domain w = ((hosts, None), w1) ->
  exists entry,
    mxCache w1 !! domain = Some entry /\ records entry = hosts /\
    lookups (issued w w1) <= 1.
Proof.
  destruct (fresh_entry domain w) eqn:Hf.
  - destruct (fresh_entry_true _ _ Hf) as (entry & He & Ht).
    rewrite (getMXRecordsCached_hit env domain w entry He Ht).
    intros [= <- <-]. exists entry. repeat split; [exact He|].
    unfold issued, lookups. rewrite drop_all. simpl. lia.
  - rewrite (getMXRecordsCached_miss env domain w Hf). simpl.
    destruct (net_LookupMX env (netlog w) domain) as [[|mx recs] [msg|]];
      try discriminate.
    intros [= <- <-]. eexists. split; [apply lookup_insert_eq|].
    split; [reflexivity|].
    unfold issued, lookups. simpl. rewrite drop_app_length. simpl. lia.
Qed.

(** C4 as stated fails.  Two calls for a domain without MX records, made
    one right after the other, issue two lookups; and a call that finds
    an expired entry and whose lookup returns nothing leaves that entry
    in the cache. *)
Lemma C4_counterexample :
  let w1 := snd (getMXRecordsCached env_no_mx "x.test" w0) in
  let w2 := snd (getMXRecordsCached env_no_mx "x.test" w1) in
  let stale := cached_world mxCacheTTL in
  ((now w2 - now w0 < mxCacheTTL)%Z /\ ~ lookups (issued w0 w2) <= 1) /\
  (fresh_entry "x.test" stale = false /\
   mxCache (snd (getMXRecordsCached env_no_mx "x.test" stale)) !! "x.test" =
     mxCache stale !! "x.test").
Proof.
  split; split.
  - reflexivity.
  - vm_compute. lia.
  - reflexivity.
  - rewrite getMXRecordsCached_miss by reflexivity. reflexivity.
Qed.

(** C4, amended.  (a) A call that finds an entry for the domain younger
    than the TTL returns its hosts and changes nothing: no operation is
    issued.  (b) When a call returns hosts, the cache then holds an entry
    with these hosts, and a second call made while that entry is younger
    than the TTL returns the same hosts without any operation, so that
    the two calls together issued at most one lookup.  (c) A call that
    finds no entry, or one that has reached the TTL, issues exactly one
    lookup; when that lookup returns a non-empty list without error the
    call returns it and the entry of the domain now holds it, stamped
    with the time of the write.  (d) When the lookup the call would issue
    fails or returns no record, the cache after the call is the cache
    before it: nothing is stored for the domain, and an entry it had,
    expired or not, is still there unchanged. *)
Theorem C4_cache_ttl env domain w :
  (forall entry,
     mxCache w !! domain = Some entry ->
     (now w - timestamp entry < mxCacheTTL)%Z ->
     getMXRecordsCached env domain w = ((records entry, None), w)) /\
  (forall hosts w1 d,
     getMXRecordsCached env domain w = ((hosts, None), w1) ->
     exists entry,
       mxCache w1 !! domain = Some entry /\ records entry = hosts /\
       ((now w1 + Z.of_N d - timestamp entry < mxCacheTTL)%Z ->
        getMXRecordsCached env domain (elapse d w1) =
          ((hosts, None), elapse d w1) /\
        lookups
          (issued w (snd (getMXRecordsCached env domain (elapse d w1)))) <= 1)) /\
  (fresh_entry domain w = false ->
   let w' := snd (getMXRecordsCached env domain w) in
   issued w w' = [OpLookupMX domain] /\
   forall recs,
     net_LookupMX env (netlog w) domain = (recs, None) -> recs <> [] ->
     fst (getMXRecordsCached env domain w) = (recs, None) /\
     mxCache w' !! domain =
       Some {| records := recs; timestamp := now w' |}) /\
  (is_err (snd (net_LookupMX env (netlog w) domain)) = true \/
   fst (net_LookupMX env (netlog w) domain) = [] ->
   mxCache (snd (getMXRecordsCached env domain w)) = mxCache w /\
   mxCache (snd (getMXRecordsCached env domain w)) !! domain =
     mxCache w !! domain).
Proof.
  split; [|split; [|split]].
  - intros entry. apply getMXRecordsCached_hit.
  - intros hosts w1 d Hcall.
    destruct (getMXRecordsCached_success _ _ _ _ _ Hcall)
      as (entry & He & Hr & Hl).
    exists entry. repeat split; [exact He|exact Hr| |].
    + rewrite <- Hr. now apply getMXRecordsCached_hit.
    + rewrite (getMXRecordsCached_hit env domain (elapse d w1) entry);
        [exact Hl|exact He|exact H].
  - intros Hf. rewrite (getMXRecordsCached_miss env domain w Hf). simpl.
    split.
    + unfold issued.
      destruct (net_LookupMX env (netlog w) domain) as [[|? ?] [?|]];
        simpl; apply drop_app_length.
    + intros recs -> Hne. destruct recs as [|mx recs]; [contradiction|].
      simpl. split; [reflexivity|apply lookup_insert_eq].
  - intros Hfail.
    assert (Hsame : mxCache (snd (getMXRecordsCached env domain w)) =
                    mxCache w).
    { destruct (fresh_entry domain w) eqn:Hf.
      - destruct (fresh_entry_true _ _ Hf) as (entry & He & Ht).
        now rewrite (getMXRecordsCached_hit env domain w entry He Ht).
      - rewrite (getMXRecordsCached_miss env domain w Hf). simpl.
        destruct (net_LookupMX env (netlog w) domain) as [[|mx recs] [msg|]];
          simpl in *; try reflexivity.
        destruct Hfail; discriminate. }
    split; [exact Hsame|now rewrite Hsame].
Qed.

Lemma C4_cache_ttl_witness :
  let w1 := snd (getMXRecordsCached env_accept "x.test" w0) in
  let w2 := snd (getMXRecordsCached env_accept "x.test" (elapse 1000 w1)) in
  fst (getMXRecordsCached env_accept "x.test" (elapse 1000 w1)) =
    (sample_mx, None) /\
  lookups (issued w0 w2) <= 1 /\
  mxCache (snd (getMXRecordsCached env_no_mx "x.test"
                  (cached_world mxCacheTTL))) !! "x.test" =
    Some {| records := sample_mx; timestamp := 0 |}.
Proof.
  destruct (proj1 (proj2 (C4_cache_ttl env_accept "x.test" w0))
              sample_mx (snd (getMXRecordsCached env_accept "x.test" w0))
              1000%N eq_refl)
    as (entry & He & Hr & Hsecond).
  vm_compute in He. injection He as <-.
  destruct (Hsecond ltac:(vm_compute; reflexivity)) as [H1 H2].
  simpl. split; [now rewrite H1|]. split; [exact H2|].
  rewrite (proj2 (proj2 (proj2 (proj2
             (C4_cache_ttl env_no_mx "x.test" (cached_world mxCacheTTL))))
             (or_intror eq_refl))).
  reflexivity.
Defined.

(** ** The cache invariant *)

Lemma cache_ok_empty : cache_ok ∅.
Proof. intros domain entry H. now rewrite lookup_empty in H. Qed.

Lemma cache_ok_insert c domain recs t :
  cache_ok c -> recs <> [] ->
  cache_ok (<[domain := {| records := recs; timestamp := t |}]> c).
Proof.
  intros Hc Hne d e. rewrite lookup_insert.
  case_decide; [intros [= <-]; exact Hne|apply Hc].
Qed.

Lemma getMXRecordsCached_cache_ok env domain w :
  cache_ok (mxCache w) ->
  cache_ok (mxCache (snd (getMXRecordsCached env domain w))).
Proof.
  intros Hc. destruct (fresh_entry domain w) eqn:Hf.
  - destruct (fresh_entry_true _ _ Hf) as (entry & He & Ht).
    now rewrite (getMXRecordsCached_hit env domain w entry He Ht).
  - rewrite (getMXRecordsCached_miss env domain w Hf). simpl.
    destruct (net_LookupMX env (netlog w) domain) as [[|mx recs] [msg|]];
      simpl; try exact Hc.
    apply cache_ok_insert; [exact Hc|discriminate].
Qed.

Lemma exec_cache_ok env a w :
  cache_ok (mxCache w) -> cache_ok (mxCache (exec env a w)).
Proof.
  destruct a as [domain|email|d]; simpl.
  - apply getMXRecordsCached_cache_ok.
  - now rewrite verifyEmailSMTP_mxCache.
  - trivial.
Qed.

(** C10.  The cache only ever holds entries of successful non-empty
    lookups.  (a) Starting from the empty cache of a fresh process, after
    any sequence of cached resolutions, probes and waiting, every entry
    has a non-empty host list; (b) each call of [getMXRecordsCached]
    keeps that invariant; (c) when the lookup it would issue returns an
    error or no record, the call leaves the cache as it was; (d) when it
    issues a lookup that returns records without error, the cache after
    the call is the one before with the entry of the domain replaced by
    these records, whatever was stored for the domain. *)
Theorem C10_cache_invariant env :
  (forall t0 acts,
     cache_ok (mxCache (exec_all env acts (initial_World t0)))) /\
  (forall domain w,
     cache_ok (mxCache w) ->
     cache_ok (mxCache (snd (getMXRecordsCached env domain w)))) /\
  (forall domain w,
     is_err (snd (net_LookupMX env (netlog w) domain)) = true \/
     fst (net_LookupMX env (netlog w) domain) = [] ->
     mxCache (snd (getMXRecordsCached env domain w)) = mxCache w) /\
  (forall domain w recs,
     fresh_entry domain w = false ->
     net_LookupMX env (netlog w) domain = (recs, None) -> recs <> [] ->
     let w' := snd (getMXRecordsCached env domain w) in
     mxCache w' =
       <[domain := {| records := recs; timestamp := now w' |}]> (mxCache w)).
Proof.
  repeat split.
  - intros t0 acts.
    assert (H : forall w, cache_ok (mxCache w) ->
                          cache_ok (mxCache (exec_all env acts w))).
    { unfold exec_all. induction acts as [|a acts IH]; simpl; [trivial|].
      intros w Hw. apply IH, exec_cache_ok, Hw. }
    apply H, cache_ok_empty.
  - intros domain w. apply getMXRecordsCached_cache_ok.
  - intros domain w Hfail. destruct (fresh_entry domain w) eqn:Hf.
    + destruct (fresh_entry_true _ _ Hf) as (entry & He & Ht).
      now rewrite (getMXRecordsCached_hit env domain w entry He Ht).
    + rewrite (getMXRecordsCached_miss env domain w Hf). simpl.
      destruct (net_LookupMX env (netlog w) domain) as [[|mx recs] [msg|]];
        simpl in *; try reflexivity.
      destruct Hfail; discriminate.
  - intros domain w recs Hf Hl Hne.
    rewrite (getMXRecordsCached_miss env domain w Hf). simpl. rewrite Hl.
    destruct recs as [|mx recs]; [contradiction|reflexivity].
Qed.

Lemma C10_cache_invariant_witness :
  let stale := cached_world mxCacheTTL in
  cache_ok (mxCache (snd (getMXRecordsCached env_accept "x.test" stale))) /\
  mxCache (snd (getMXRecordsCached env_no_mx "x.test" stale)) =
    mxCache stale /\
  mxCache (snd (getMXRecordsCached env_accept "y.test" stale)) =
    <[ "y.test" := {| records := sample_mx;
                      timestamp := mxCacheTTL + 1000000 |} ]> (mxCache stale).
Proof.
  pose proof (C10_cache_invariant env_accept) as (_ & Hb & _ & Hd).
  pose proof (C10_cache_invariant env_no_mx) as (_ & _ & Hc & _).
  split; [|split].
  - apply Hb. intros d e. unfold cached_world. simpl.
    rewrite lookup_singleton. case_decide; [|discriminate].
    intros [= <-]. discriminate.
  - apply Hc. right. reflexivity.
  - apply (Hd "y.test" (cached_world mxCacheTTL) sample_mx);
      [reflexivity|reflexivity|discriminate].
Defined.

(** ** The batch dispatcher *)

Lemma count_if_app {A} (P : A -> bool) (l1 l2 : list A) :
  count_if P (l1 ++ l2) = count_if P l1 + count_if P l2.
Proof. induction l1 as [|x l1 IH]; simpl; [reflexivity|]. rewrite IH. lia. Qed.

Lemma sum_steps_app (l1 l2 : list Worker) :
  sum_steps (l1 ++ l2) = sum_steps l1 + sum_steps l2.
Proof. induction l1 as [|x l1 IH]; simpl; [reflexivity|]. rewrite IH. lia. Qed.

Lemma count_if_le_length {A} (P : A -> bool) (l : list A) :
  count_if P l <= length l.
Proof. induction l as [|x l IH]; simpl; [lia|]. destruct (P x); lia. Qed.

Lemma count_if_negb {A} (P : A -> bool) (l : list A) :
  count_if P l + count_if (fun x => negb (P x)) l = length l.
Proof. induction l as [|x l IH]; simpl; [lia|]. destruct (P x); simpl; lia. Qed.

Lemma count_if_impl {A} (P Q : A -> bool) (l : list A) :
  (forall x, P x = true -> Q x = true) -> count_if P l <= count_if Q l.
Proof.
  intros H. induction l as [|x l IH]; simpl; [lia|].
  destruct (P x) eqn:HP; [rewrite (H x HP)|destruct (Q x)]; lia.
Qed.

(** A positive count has an element behind it. *)
Lemma count_if_pos {A} (P : A -> bool) (l : list A) :
  0 < count_if P l -> exists i x, l !! i = Some x /\ P x = true.
Proof.
  induction l as [|x l IH]; simpl; [lia|]. intros H.
  destruct (P x) eqn:HP.
  - now exists 0, x.
  - destruct (IH H) as (i & y & Hi & Hy). now exists (S i), y.
Qed.

Lemma count_live_zero (l : list Worker) :
  count_if live l = 0 -> Forall exited l.
Proof.
  induction l as [|w l IH]; simpl; intros H; constructor.
  - unfold live, exited in *. destruct (wpc w); simpl in H; try lia. reflexivity.
  - apply IH. lia.
Qed.

Lemma exited_counts (l : list Worker) :
  Forall exited l ->
  count_if writing l = 0 /\ count_if live l = 0 /\
  flat_map written_mail l = map wmail l /\ sum_steps l = 0.
Proof.
  induction 1 as [|w l Hw _ (IH1 & IH2 & IH3 & IH4)]; simpl; [auto|].
  unfold exited in Hw. rewrite IH1, IH2, IH3, IH4.
  unfold writing, live, written_mail, has_written, worker_steps.
  rewrite Hw. auto.
Qed.

(** The goroutine at index [i], and the list around it. *)
Lemma worker_at (l : list Worker) i w :
  l !! i = Some w ->
  exists l1 l2, l = l1 ++ w :: l2 /\
                forall w', <[i := w']> l = l1 ++ w' :: l2.
Proof.
  intros Hi. exists (take i l), (drop (S i) l). split.
  - symmetry. now apply take_drop_middle.
  - intros w'. apply insert_take_drop. now apply lookup_lt_Some in Hi.
Qed.

Lemma initial_Inv emails w : Inv emails (initial_State emails w).
Proof.
  constructor; simpl; try reflexivity; try (unfold concurrencyLimit; lia);
    try discriminate; try constructor.
  exists []. split; [reflexivity|constructor].
Qed.

Lemma step_main_Inv emails s s' :
  Inv emails s -> step_main s = Stepped s' -> Inv emails s'.
Proof.
  intros [Hsem Hlim Hwg Hmx Hem (rs & Hout & Hperm) Hown Hj]. unfold step_main.
  destruct (main s) as [[|email rest]|email rest|email rest| | | |] eqn:Hm;
    simpl in *.
  - intros [= <-]. constructor; simpl; auto; try lia; eauto; try discriminate.
  - intros [= <-]. constructor; simpl; auto; try lia; eauto; try discriminate.
  - destruct (Nat.ltb_spec (sem s) concurrencyLimit); [|discriminate].
    intros [= <-]. constructor; simpl; auto; try lia; eauto; try discriminate.
  - intros [= <-]. constructor; simpl; try discriminate;
      rewrite ?count_if_app, ?map_app, ?flat_map_app; simpl; try lia.
    + now rewrite <- app_assoc.
    + exists rs. rewrite ?app_nil_r in *. auto.
    + apply Forall_app. split; [exact Hown|]. repeat constructor.
  - destruct (Nat.eqb_spec (wg s) 0) as [H0|]; [|discriminate].
    intros [= <-]. constructor; simpl; auto; try lia; eauto.
    intros _. apply count_live_zero. lia.
  - destruct (writeMutex s) eqn:Hw; [discriminate|].
    intros [= <-]. constructor; simpl; auto; try lia; eauto.
  - intros [= <-]. constructor; simpl; auto; try lia.
    + destruct (exited_counts _ (Hj eq_refl)) as (Hc & _). lia.
    + exists rs. rewrite Hout, app_nil_r. auto.
  - discriminate.
Qed.

Lemma live_not_joined emails s i w :
  Inv emails s -> workers s !! i = Some w -> wpc w <> PExit ->
  past_wait (main s) = false.
Proof.
  intros HI Hi Hpc. destruct (past_wait (main s)) eqn:Hp; [|reflexivity].
  pose proof (inv_joined _ _ HI Hp) as Hall.
  rewrite Forall_lookup in Hall. specialize (Hall i w Hi). contradiction.
Qed.

Lemma step_worker_Inv env emails i s s' :
  Inv emails s -> step_worker env i s = Stepped s' -> Inv emails s'.
Proof.
  intros HI. unfold step_worker.
  destruct (workers s !! i) as [[mail pc]|] eqn:Hi; [|discriminate].
  destruct (worker_at _ _ _ Hi) as (l1 & l2 & Hl & Hupd).
  assert (Hnp : pc <> PExit -> past_wait (main s) = false)
    by (intros Hpc; exact (live_not_joined _ _ _ _ HI Hi Hpc)).
  destruct HI as [Hsem Hlim Hwg Hmx Hem (rs & Hout & Hperm) Hown Hj].
  rewrite Hl in Hsem, Hwg, Hmx, Hem, Hperm, Hown.
  rewrite ?count_if_app, ?map_app, ?flat_map_app in *. simpl in *.
  apply Forall_app in Hown as [Hown1 Hown2].
  apply Forall_cons in Hown2 as [Hown0 Hown2]. unfold own_verdict in Hown0.
  simpl in Hown0.
  destruct pc as [|res|res| | |]; simpl in *.
  - destruct (verifyEmailSMTP env mail (world s)) as [r world'].
    intros [= <-]. specialize (Hnp ltac:(discriminate)).
    constructor; simpl; rewrite ?Hupd;
      rewrite ?count_if_app, ?map_app, ?flat_map_app; simpl; auto; try lia.
    + eauto.
    + apply Forall_app. split; [exact Hown1|]. constructor; [|exact Hown2].
      apply response_Email.
    + intros Hp. rewrite Hp in Hnp. discriminate.
  - destruct (writeMutex s) eqn:Hw; [discriminate|].
    intros [= <-]. specialize (Hnp ltac:(discriminate)).
    constructor; simpl; rewrite ?Hupd;
      rewrite ?count_if_app, ?map_app, ?flat_map_app; simpl; auto; try lia.
    + eauto.
    + apply Forall_app. split; [exact Hown1|]. now constructor.
    + intros Hp. rewrite Hp in Hnp. discriminate.
  - intros [= <-]. specialize (Hnp ltac:(discriminate)).
    constructor; simpl; rewrite ?Hupd;
      rewrite ?count_if_app, ?map_app, ?flat_map_app; simpl; auto; try lia.
    + destruct (writeMutex s); lia.
    + exists (rs ++ [res]). split.
      * rewrite Hout. destruct (main s); try discriminate Hnp; simpl;
          now rewrite map_app, ?app_nil_r.
      * rewrite map_app. simpl. rewrite Hown0.
        rewrite <- Permutation_cons_append.
        now apply Permutation_cons_app.
    + apply Forall_app. split; [exact Hown1|]. now constructor.
    + intros Hp. rewrite Hp in Hnp. discriminate.
  - destruct (sem s) as [|n] eqn:Hn; [discriminate|].
    intros [= <-]. specialize (Hnp ltac:(discriminate)).
    constructor; simpl; rewrite ?Hupd;
      rewrite ?count_if_app, ?map_app, ?flat_map_app; simpl; auto; try lia.
    + eauto.
    + apply Forall_app. split; [exact Hown1|]. now constructor.
    + intros Hp. rewrite Hp in Hnp. discriminate.
  - destruct (wg s) as [|n] eqn:Hn; [discriminate|].
    intros [= <-]. specialize (Hnp ltac:(discriminate)).
    constructor; simpl; rewrite ?Hupd;
      rewrite ?count_if_app, ?map_app, ?flat_map_app; simpl; auto; try lia.
    + eauto.
    + apply Forall_app. split; [exact Hown1|]. now constructor.
    + intros Hp. rewrite Hp in Hnp. discriminate.
  - discriminate.
Qed.

Lemma step_Inv env emails t s s' :
  Inv emails s -> step env t s = Stepped s' -> Inv emails s'.
Proof.
  destruct t as [|i]; simpl; [apply step_main_Inv|apply step_worker_Inv].
Qed.

Lemma run_Inv env emails sched s s' :
  Inv emails s -> run env sched s = Some s' -> Inv emails s'.
Proof.
  revert s. induction sched as [|t sched IH]; simpl; intros s HI.
  - now intros [= <-].
  - destruct (step env t s) as [s1| | |] eqn:Hs; try discriminate.
    apply IH. eapply step_Inv; eassumption.
Qed.

(** Every step uses up one of the steps left. *)
Lemma step_steps_left env t s s' :
  step env t s = Stepped s' -> S (steps_left s') = steps_left s.
Proof.
  unfold steps_left. destruct t as [|i]; simpl.
  - unfold step_main.
    destruct (main s) as [[|email rest]|email rest|email rest| | | |];
      simpl;
      repeat match goal with
        | |- context [if ?b then _ else _] => destruct b
        end;
      try discriminate; intros [= <-]; simpl;
      rewrite ?sum_steps_app; simpl; lia.
  - unfold step_worker.
    destruct (workers s !! i) as [[mail pc]|] eqn:Hi; [|discriminate].
    destruct (worker_at _ _ _ Hi) as (l1 & l2 & Hl & Hupd).
    destruct pc as [|res|res| | |]; simpl;
      try destruct (verifyEmailSMTP env mail (world s)) as [r world'];
      try destruct (writeMutex s); try destruct (sem s); try destruct (wg s);
      try discriminate; intros [= <-]; simpl;
      rewrite Hupd, Hl, !sum_steps_app; simpl; lia.
Qed.

Lemma run_steps_left env sched s s' :
  run env sched s = Some s' -> length sched + steps_left s' = steps_left s.
Proof.
  revert s. induction sched as [|t sched IH]; simpl; intros s.
  - now intros [= <-].
  - destruct (step env t s) as [s1| | |] eqn:Hs; try discriminate.
    intros Hr. apply IH in Hr. apply step_steps_left in Hs. lia.
Qed.

Lemma count_if_lookup {A} (P : A -> bool) (l : list A) i x :
  l !! i = Some x -> P x = true -> 0 < count_if P l.
Proof.
  revert i. induction l as [|y l IH]; intros [|i]; simpl; try discriminate.
  - intros [= ->] ->. lia.
  - intros Hi Hx. specialize (IH i Hi Hx). lia.
Qed.

(** A goroutine that has not returned can step, or the one that holds the
    write mutex can. *)
Lemma worker_progress env emails s i w :
  Inv emails s -> main_writing (main s) = 0 ->
  workers s !! i = Some w -> live w = true ->
  exists t s', step env t s = Stepped s'.
Proof.
  intros HI Hmw Hi Hlive. destruct w as [mail pc].
  destruct pc as [|res|res| | |]; try discriminate Hlive.
  - exists (TWorker i). simpl. unfold step_worker. rewrite Hi. simpl.
    destruct (verifyEmailSMTP env mail (world s)). eauto.
  - destruct (writeMutex s) eqn:Hw.
    + pose proof (inv_mutex _ _ HI) as Hmx. rewrite Hw, Hmw in Hmx.
      destruct (count_if_pos writing (workers s)) as (j & [mail' pc'] & Hj & Hwr);
        [lia|].
      destruct pc'; try discriminate Hwr.
      exists (TWorker j). simpl. unfold step_worker. rewrite Hj. simpl. eauto.
    + exists (TWorker i). simpl. unfold step_worker. rewrite Hi. simpl.
      rewrite Hw. eauto.
  - exists (TWorker i). simpl. unfold step_worker. rewrite Hi. simpl. eauto.
  - pose proof (inv_sem _ _ HI) as Hsem.
    pose proof (count_if_lookup holds_token _ _ _ Hi eq_refl).
    exists (TWorker i). simpl. unfold step_worker. rewrite Hi. simpl.
    destruct (sem s); [lia|eauto].
  - pose proof (inv_wg _ _ HI) as Hwg.
    pose proof (count_if_lookup live _ _ _ Hi eq_refl).
    exists (TWorker i). simpl. unfold step_worker. rewrite Hi. simpl.
    destruct (wg s); [lia|eauto].
Qed.

(** Until the handler has returned, some thread can step. *)
Lemma progress env emails s :
  Inv emails s -> main s <> MDone -> exists t s', step env t s = Stepped s'.
Proof.
  intros HI Hnd.
  destruct (main s) as [[|email rest]|email rest|email rest| | | |] eqn:Hm;
    try contradiction;
    try (exists TMain; simpl; unfold step_main; rewrite Hm; eauto; fail).
  - destruct (Nat.ltb_spec (sem s) concurrencyLimit) as [Hlt|Hge].
    + exists TMain. simpl. unfold step_main. rewrite Hm.
      apply Nat.ltb_lt in Hlt. rewrite Hlt. eauto.
    + pose proof (inv_sem _ _ HI) as Hsem. rewrite Hm in Hsem. simpl in Hsem.
      destruct (count_if_pos holds_token (workers s)) as (i & w & Hi & Hw);
        [unfold concurrencyLimit in Hge; lia|].
      apply (worker_progress env emails s i w HI); [now rewrite Hm|exact Hi|].
      unfold holds_token in Hw. unfold live. destruct (wpc w); auto.
  - destruct (Nat.eqb_spec (wg s) 0) as [H0|Hpos].
    + exists TMain. simpl. unfold step_main. rewrite Hm.
      apply Nat.eqb_eq in H0. rewrite H0. eauto.
    + pose proof (inv_wg _ _ HI) as Hwg. rewrite Hm in Hwg. simpl in Hwg.
      destruct (count_if_pos live (workers s)) as (i & w & Hi & Hw); [lia|].
      apply (worker_progress env emails s i w HI); [now rewrite Hm|exact Hi|exact Hw].
  - exists TMain. simpl. unfold step_main. rewrite Hm.
    pose proof (inv_mutex _ _ HI) as Hmx. rewrite Hm in Hmx. simpl in Hmx.
    assert (Hj : Forall exited (workers s))
      by (apply (inv_joined _ _ HI); now rewrite Hm).
    destruct (exited_counts _ Hj) as (Hc & _).
    destruct (writeMutex s); [lia|eauto].
Qed.

(** [wg.Done()] never finds the counter at zero. *)
Lemma no_panic env emails t s :
  Inv emails s -> step env t s <> Panic.
Proof.
  intros HI. destruct t as [|i]; simpl.
  - unfold step_main.
    destruct (main s) as [[|email rest]|email rest|email rest| | | |];
      simpl;
      repeat match goal with
        | |- context [if ?b then _ else _] => destruct b
        end; discriminate.
  - unfold step_worker. destruct (workers s !! i) as [[mail pc]|] eqn:Hi;
      [|discriminate].
    destruct pc; simpl.
    + destruct (verifyEmailSMTP env mail (world s)). discriminate.
    + destruct (writeMutex s); discriminate.
    + discriminate.
    + destruct (sem s); discriminate.
    + pose proof (inv_wg _ _ HI) as Hwg.
      pose proof (count_if_lookup live _ _ _ Hi eq_refl).
      destruct (wg s); [lia|discriminate].
    + discriminate.
Qed.

Lemma written_le_started (l : list Worker) :
  length (flat_map written_mail l) <= length l.
Proof.
  induction l as [|w l IH]; simpl; [lia|]. rewrite length_app.
  unfold written_mail at 1. destruct (has_written w); simpl; lia.
Qed.

(** What has been sent, at any point of any execution. *)
Lemma Inv_out emails s :
  Inv emails s ->
  exists rs,
    (main s <> MDone /\ out s = map emailResult rs /\
     length rs <= length emails) \/
    (main s = MDone /\
     out s = map emailResult rs ++ [endEvent "All emails processed"] /\
     Permutation (map Email rs) emails).
Proof.
  intros HI. destruct (inv_out _ _ HI) as (rs & Hout & Hperm). exists rs.
  pose proof (inv_emails _ _ HI) as Hem.
  assert (Hlen : length rs <= length emails).
  { apply Permutation_length in Hperm. rewrite length_map in Hperm.
    pose proof (written_le_started (workers s)).
    rewrite <- Hem, length_app, length_map. lia. }
  destruct (main s) eqn:Hm; simpl in *;
    try (left; split; [discriminate|];
         split; [now rewrite Hout, app_nil_r|exact Hlen]).
  right. split; [reflexivity|]. split; [exact Hout|].
  assert (Hj : Forall exited (workers s))
    by (apply (inv_joined _ _ HI); now rewrite Hm).
  destruct (exited_counts _ Hj) as (_ & _ & Hw & _).
  rewrite Hperm, Hw, <- Hem. now rewrite app_nil_r.
Qed.

(** Every execution can be continued until the handler returns. *)
Lemma run_to_end env emails s :
  Inv emails s ->
  exists sched s', run env sched s = Some s' /\ main s' = MDone.
Proof.
  remember (steps_left s) as n eqn:Hn. revert s Hn.
  induction n as [n IH] using lt_wf_ind. intros s Hn HI.
  destruct (main s) eqn:Hm;
    try (destruct (progress env emails s HI) as (t & s1 & Hstep);
         [rewrite Hm; discriminate|];
         pose proof (step_steps_left _ _ _ _ Hstep) as Hlt;
         destruct (IH (steps_left s1) ltac:(lia) s1 eq_refl
                     (step_Inv _ _ _ _ _ HI Hstep))
           as (sched & s' & Hrun & Hd);
         exists (t :: sched), s'; simpl; rewrite Hstep; auto).
  exists [], s. auto.
Qed.

(** C1.  At every point of every execution of the handler on a batch,
    what has been sent is either verdicts only, at most one per address
    of the batch, while the handler has not returned; or, once it has
    returned, verdicts whose addresses are those of the batch, each as
    often as it occurs there (so N verdicts for N addresses), followed by
    the marker "All emails processed" as the one and last event.  Until
    the handler has returned some goroutine can always step, none panics,
    every execution can be continued to the handler's return, and an
    execution has at most 8 N + 4 steps: every run ends, and it ends with
    the N verdicts and then the marker. *)
Theorem C1_batch_emits env emails w sched s :
  run env sched (initial_State emails w) = Some s ->
  (exists rs,
     (main s <> MDone /\ out s = map emailResult rs /\
      length rs <= length emails) \/
     (main s = MDone /\
      out s = map emailResult rs ++ [endEvent "All emails processed"] /\
      Permutation (map Email rs) emails /\ length rs = length emails)) /\
  (main s <> MDone -> exists t s', step env t s = Stepped s') /\
  (forall t, step env t s <> Panic) /\
  (exists sched' s', run env sched' s = Some s' /\ main s' = MDone) /\
  length sched + steps_left s = 8 * length emails + 4.
Proof.
  intros Hrun.
  pose proof (run_Inv env emails sched _ s (initial_Inv emails w) Hrun) as HI.
  split; [|split; [|split; [|split]]].
  - destruct (Inv_out emails s HI) as (rs & [H|(Hd & Hout & Hperm)]);
      exists rs; [left; exact H|right].
    repeat split; auto.
    apply Permutation_length in Hperm. now rewrite length_map in Hperm.
  - apply (progress env emails s HI).
  - intros t. apply (no_panic env emails t s HI).
  - apply (run_to_end env emails s HI).
  - rewrite (run_steps_left env sched _ s Hrun). unfold steps_left. simpl. lia.
Qed.

Lemma C1_batch_emits_witness :
  exists s rs,
    run env_accept sched_two (initial_State two w0) = Some s /\
    out s = map emailResult rs ++ [endEvent "All emails processed"] /\
    Permutation (map Email rs) two.
Proof.
  destruct (run env_accept sched_two (initial_State two w0)) as [s|] eqn:Hrun;
    [|vm_compute in Hrun; discriminate].
  destruct (C1_batch_emits env_accept two w0 sched_two s Hrun)
    as ((rs & [(Hnd & _)|(_ & Hout & Hperm & _)]) & _).
  - exfalso. apply Hnd. vm_compute in Hrun. injection Hrun as <-. reflexivity.
  - exists s, rs. auto.
Defined.

(** C6.  At every point of every execution of the handler, with the
    ceiling [concurrencyLimit = 10]: at most 10 probes are in flight; at
    most 10 started goroutines hold a token; the number of goroutines
    started exceeds the number that have returned their token by at most
    10, so the goroutine of an address beyond the ceiling exists only
    after that many earlier ones have released theirs; and with all 10
    tokens out the main goroutine waits at [sem <-] and starts nothing. *)
Theorem C6_concurrency_ceiling env emails w sched s :
  run env sched (initial_State emails w) = Some s ->
  concurrencyLimit = 10 /\
  in_flight s <= concurrencyLimit /\
  count_if holds_token (workers s) <= concurrencyLimit /\
  length (workers s) <= released s + concurrencyLimit /\
  (forall email rest,
     main s = MAcquire email rest ->
     count_if holds_token (workers s) = concurrencyLimit ->
     step env TMain s = Blocked).
Proof.
  intros Hrun.
  pose proof (run_Inv env emails sched _ s (initial_Inv emails w) Hrun) as HI.
  pose proof (inv_sem _ _ HI) as Hsem. pose proof (inv_limit _ _ HI) as Hlim.
  assert (Hheld : count_if holds_token (workers s) <= concurrencyLimit) by lia.
  repeat split.
  - unfold in_flight.
    pose proof (count_if_impl probing holds_token (workers s)) as Hle.
    assert (count_if probing (workers s) <= count_if holds_token (workers s)).
    { apply Hle. intros x. unfold probing, holds_token.
      now destruct (wpc x). }
    lia.
  - exact Hheld.
  - unfold released.
    pose proof (count_if_negb holds_token (workers s)). lia.
  - intros email rest Hm Hfull. simpl. unfold step_main. rewrite Hm.
    rewrite Hm in Hsem. simpl in Hsem.
    destruct (Nat.ltb_spec (sem s) concurrencyLimit); [lia|reflexivity].
Qed.

Lemma C6_concurrency_ceiling_witness :
  exists s,
    run env_accept fill_pool (initial_State eleven w0) = Some s /\
    length (workers s) = 10 /\ in_flight s = 10 /\
    in_flight s <= concurrencyLimit /\
    step env_accept TMain s = Blocked.
Proof.
  destruct (run env_accept fill_pool (initial_State eleven w0)) as [s|] eqn:Hrun;
    [|vm_compute in Hrun; discriminate].
  destruct (C6_concurrency_ceiling env_accept eleven w0 fill_pool s Hrun)
    as (_ & Hfl & _ & _ & Hblock).
  exists s. split; [reflexivity|].
  vm_compute in Hrun. injection Hrun as Hs.
  split; [now rewrite <- Hs|]. split; [now rewrite <- Hs|].
  split; [exact Hfl|].
  apply (Hblock "a10@x.test" []); rewrite <- Hs; reflexivity.
Defined.

(** * Further properties of the code *)

(** ** [strings.Split] at the ['@'] *)

Lemma strings_Split_one s sep p :
  strings_Split s sep = [p] -> s = p /\ strings_Count s sep = 0.
Proof.
  revert p. induction s as [|c rest IH]; simpl; intros p.
  - now intros [= <-].
  - destruct (Ascii.eqb c sep).
    + pose proof (strings_Split_length rest sep) as Hl.
      destruct (strings_Split rest sep); [discriminate Hl|discriminate].
    + destruct (strings_Split rest sep) as [|q qs] eqn:Hs.
      * pose proof (strings_Split_length rest sep) as Hl. rewrite Hs in Hl.
        discriminate Hl.
      * intros [= <- ->]. destruct (IH q eq_refl) as [-> Hc]. now split.
Qed.

Lemma strings_Split_none s sep :
  strings_Count s sep = 0 -> strings_Split s sep = [s].
Proof.
  induction s as [|c rest IH]; simpl; [reflexivity|].
  destruct (Ascii.eqb c sep); [discriminate|].
  intros H. now rewrite (IH H).
Qed.

Lemma strings_Count_app s1 s2 sep :
  strings_Count (s1 ++ s2)%string sep =
  strings_Count s1 sep + strings_Count s2 sep.
Proof.
  induction s1 as [|c rest IH]; simpl; [reflexivity|].
  destruct (Ascii.eqb c sep); simpl; now rewrite IH.
Qed.

Lemma strings_Split_pair s sep l d :
  strings_Split s sep = [l; d] <->
  s = (l ++ String sep d)%string /\
  strings_Count l sep = 0 /\ strings_Count d sep = 0.
Proof.
  split.
  - revert l. induction s as [|c rest IH]; simpl; intros l; [discriminate|].
    destruct (Ascii.eqb_spec c sep) as [->|Hne].
    + intros [= <- Hs]. destruct (strings_Split_one _ _ _ Hs) as [-> Hc].
      now repeat split.
    + destruct (strings_Split rest sep) as [|q qs] eqn:Hs; [discriminate|].
      intros [= <- ->]. destruct (IH q eq_refl) as (-> & Hq & Hd).
      repeat split; [|exact Hd]. simpl.
      destruct (Ascii.eqb_spec c sep); [contradiction|exact Hq].
  - intros (-> & Hl & Hd). revert Hl.
    induction l as [|c rest IH]; simpl.
    + intros _. rewrite Ascii.eqb_refl. now rewrite (strings_Split_none d sep Hd).
    + destruct (Ascii.eqb c sep); [discriminate|].
      intros H. now rewrite (IH H).
Qed.

(** X1.  Splitting an address at ['@'] gives exactly two parts [l] and
    [d] if and only if the address is [l], one ['@'], then [d], with no
    ['@'] in [l] or in [d]: the domain the probe looks up is all that
    follows the only ['@'], and either part may be empty. *)
Theorem X1_split_at_sign email l d :
  strings_Split email at_sign = [l; d] <->
  email = (l ++ "@" ++ d)%string /\
  strings_Count l at_sign = 0 /\ strings_Count d at_sign = 0.
Proof. apply strings_Split_pair. Qed.

Lemma X1_split_at_sign_witness :
  strings_Split "user@x.test" at_sign = ["user"; "x.test"] /\
  strings_Split "@" at_sign = [""; ""].
Proof.
  split.
  - apply (proj2 (X1_split_at_sign "user@x.test" "user" "x.test")).
    repeat split; reflexivity.
  - apply (proj2 (X1_split_at_sign "@" "" "")). repeat split; reflexivity.
Defined.

(** ** The dialogue of the probe *)

Lemma probe_outcomes env email w :
  let domain := nth 1 (strings_Split email at_sign) "" in
  let host :=
    match fst (net_LookupMX env (netlog w ++ [OpLookupMX domain]) domain) with
    | mx0 :: _ => Host mx0
    | [] => ""
    end in
  In (fst (verifyEmailSMTP env email w),
      issued w (snd (verifyEmailSMTP env email w)))
     (outcomes email domain host).
Proof.
  unfold issued, outcomes. probe_unfold.
  probe_cases;
    repeat rewrite <- app_assoc; simpl;
    rewrite ?drop_app_length, ?drop_all; simpl;
    simplify_eq; repeat (first [left; reflexivity | right]).
Qed.

(** X2.  Whatever the network answers, a probe ends in one of eight
    ways, each with its own sequence of operations: nothing for a
    malformed address; one lookup; two lookups; then one dial to port 25
    of the first host of the second answer; then the client,
    [HELO localhost], [MAIL FROM] the fixed sender and [RCPT TO] the
    address.  No operation is repeated, nothing is issued after a failure
    but the closes, and a client and a connection that were opened are
    closed, client first, on every path. *)
Theorem X2_probe_outcomes env email w :
  let domain := nth 1 (strings_Split email at_sign) "" in
  let host :=
    match fst (net_LookupMX env (netlog w ++ [OpLookupMX domain]) domain) with
    | mx0 :: _ => Host mx0
    | [] => ""
    end in
  In (fst (verifyEmailSMTP env email w),
      issued w (snd (verifyEmailSMTP env email w)))
     (outcomes email domain host).
Proof. apply probe_outcomes. Qed.

(** X3.  A probe that accepts has carried the whole dialogue through,
    for this very address: the address has one ['@'], and the operations
    issued are the two lookups of its domain, the dial, the client,
    [HELO localhost], [MAIL FROM:<check@yourdomain.com>], [RCPT TO] the
    address itself, and the two closes. *)
Theorem X3_accept_means_rcpt env email w :
  fst (verifyEmailSMTP env email w) = (true, None) ->
  strings_Count email at_sign = 1 /\
  exists l d host,
    email = (l ++ "@" ++ d)%string /\
    strings_Count l at_sign = 0 /\ strings_Count d at_sign = 0 /\
    issued w (snd (verifyEmailSMTP env email w)) =
      [ OpLookupMX d; OpLookupMX d; OpDial "tcp" (host ++ ":25")%string;
        OpNewClient host; OpHello "localhost";
        OpMail "check@yourdomain.com"; OpRcpt email;
        OpClientClose; OpConnClose ].
Proof.
  intros Hacc.
  assert (Hs : exists l d, strings_Split email at_sign = [l; d]).
  { destruct (strings_Split email at_sign) as [|l [|d [|? ?]]] eqn:Hs;
      try (unfold verifyEmailSMTP in Hacc; rewrite Hs in Hacc;
           discriminate Hacc).
    now exists l, d. }
  destruct Hs as (l & d & Hs).
  pose proof (probe_outcomes env email w) as Hin.
  rewrite Hs, Hacc in Hin. simpl in Hin.
  assert (Hone : strings_Count email at_sign = 1).
  { pose proof (strings_Split_length email at_sign) as Hl.
    rewrite Hs in Hl. simpl in Hl. lia. }
  apply strings_Split_pair in Hs as (Hemail & Hcl & Hcd).
  split; [exact Hone|].
  exists l, d. eexists. split; [exact Hemail|].
  split; [exact Hcl|]. split; [exact Hcd|].
  repeat (destruct Hin as [Hin|Hin]; [try discriminate Hin|]);
    [|contradiction].
  injection Hin as Hin. symmetry. exact Hin.
Qed.

Lemma X3_accept_means_rcpt_witness :
  strings_Count "a@x.test" at_sign = 1 /\
  exists l d host,
    "a@x.test" = (l ++ "@" ++ d)%string /\
    strings_Count l at_sign = 0 /\ strings_Count d at_sign = 0 /\
    issued w0 (snd (verifyEmailSMTP env_accept "a@x.test" w0)) =
      [ OpLookupMX d; OpLookupMX d; OpDial "tcp" (host ++ ":25")%string;
        OpNewClient host; OpHello "localhost";
        OpMail "check@yourdomain.com"; OpRcpt "a@x.test";
        OpClientClose; OpConnClose ].
Proof. exact (X3_accept_means_rcpt env_accept "a@x.test" w0 eq_refl). Defined.

(** ** An unchanged remote side *)

Lemma stateless_result env email w w' :
  stateless env ->
  fst (verifyEmailSMTP env email w) = fst (verifyEmailSMTP env email w').
Proof.
  intros Hs.
  assert (HL : forall h d, net_LookupMX env h d = net_LookupMX env [] d)
    by (intros h d; apply (Hs h [])).
  assert (HD : forall h n a, net_Dial env h n a = net_Dial env [] n a)
    by (intros h n a; apply (Hs h [])).
  assert (HN : forall h a, smtp_NewClient env h a = smtp_NewClient env [] a)
    by (intros h a; apply (Hs h [])).
  assert (HM : forall h a, client_Mail env h a = client_Mail env [] a)
    by (intros h a; apply (Hs h [])).
  assert (HR : forall h a, client_Rcpt env h a = client_Rcpt env [] a)
    by (intros h a; apply (Hs h [])).
  clear Hs.
  remember (net_LookupMX env []) as fL eqn:EL.
  remember (net_Dial env []) as fD eqn:ED.
  remember (smtp_NewClient env []) as fN eqn:EN.
  remember (client_Mail env []) as fM eqn:EM.
  remember (client_Rcpt env []) as fR eqn:ER.
  clear EL ED EN EM ER.
  probe_unfold.
  repeat
    (simpl;
     match goal with
     | |- context [net_LookupMX env ?h ?d] =>
         rewrite (HL h d);
         first [ match goal with H : fL d = _ |- _ => rewrite H end
               | destruct (fL d) as [[|? ?] [?|]] eqn:? ]
     | |- context [net_Dial env ?h ?n ?a] =>
         rewrite (HD h n a);
         first [ match goal with H : fD n a = _ |- _ => rewrite H end
               | destruct (fD n a) eqn:? ]
     | |- context [smtp_NewClient env ?h ?a] =>
         rewrite (HN h a);
         first [ match goal with H : fN a = _ |- _ => rewrite H end
               | destruct (fN a) eqn:? ]
     | |- context [client_Mail env ?h ?a] =>
         rewrite (HM h a);
         first [ match goal with H : fM a = _ |- _ => rewrite H end
               | destruct (fM a) eqn:? ]
     | |- context [client_Rcpt env ?h ?a] =>
         rewrite (HR h a);
         first [ match goal with H : fR a = _ |- _ => rewrite H end
               | destruct (fR a) eqn:? ]
     | |- context [(?n =? 2)%nat] => destruct (n =? 2)%nat eqn:?
     end);
    reflexivity.
Qed.

(** X4.  Against a remote side whose answers do not change, the verdict
    for an address does not depend on when it is asked or on what the
    process did before: probing the same address twice in a row gives the
    same verdict twice, and so in any state of the cache, the clock and
    the log. *)
Theorem X4_probe_idempotent env email w w' :
  stateless env ->
  fst (checkEmail env email w) = fst (checkEmail env email w') /\
  fst (checkEmail env email (snd (checkEmail env email w))) =
    fst (checkEmail env email w).
Proof.
  intros Hs.
  assert (H : forall a b,
             fst (checkEmail env email a) = fst (checkEmail env email b)).
  { intros a b. unfold checkEmail, bind, ret.
    pose proof (stateless_result env email a b Hs) as Hr.
    destruct (verifyEmailSMTP env email a), (verifyEmailSMTP env email b).
    simpl in *. now rewrite Hr. }
  split; apply H.
Qed.

Lemma stateless_constant_env dns dial newClient hello mail rcpt :
  stateless (constant_env dns dial newClient hello mail rcpt).
Proof. intros h h'. repeat split. Qed.

Lemma X4_probe_idempotent_witness :
  fst (checkEmail env_accept "a@x.test"
         (snd (checkEmail env_accept "a@x.test" w0))) =
  {| Email := "a@x.test"; Valid := true; Message := "Email exists" |}.
Proof.
  rewrite (proj2 (X4_probe_idempotent env_accept "a@x.test" w0 w0
                    (stateless_constant_env _ _ _ _ _ _))).
  reflexivity.
Defined.

(** ** More on the cached resolver *)

Lemma getMXRecordsCached_other env domain w d :
  d <> domain ->
  mxCache (snd (getMXRecordsCached env domain w)) !! d = mxCache w !! d.
Proof.
  intros Hne. destruct (fresh_entry domain w) eqn:Hf.
  - destruct (fresh_entry_true _ _ Hf) as (entry & He & Ht).
    now rewrite (getMXRecordsCached_hit env domain w entry He Ht).
  - rewrite (getMXRecordsCached_miss env domain w Hf). simpl.
    destruct (net_LookupMX env (netlog w) domain) as [[|mx recs] [msg|]];
      simpl; try reflexivity.
    now apply lookup_insert_ne.
Qed.

Lemma getMXRecordsCached_keeps env domain w d :
  is_Some (mxCache w !! d) ->
  is_Some (mxCache (snd (getMXRecordsCached env domain w)) !! d).
Proof.
  intros Hd. destruct (decide (d = domain)) as [->|Hne].
  - destruct (fresh_entry domain w) eqn:Hf.
    + destruct (fresh_entry_true _ _ Hf) as (entry & He & Ht).
      now rewrite (getMXRecordsCached_hit env domain w entry He Ht).
    + rewrite (getMXRecordsCached_miss env domain w Hf). simpl.
      destruct (net_LookupMX env (netlog w) domain) as [[|mx recs] [msg|]];
        simpl; try exact Hd.
      rewrite lookup_insert_eq. eauto.
  - now rewrite getMXRecordsCached_other.
Qed.

(** X5.  The cache never loses an entry: a call of the resolver leaves
    the entries of all other domains as they are, and a domain that has
    an entry keeps one through any sequence of resolutions, probes and
    waiting; there is no eviction, expired entries stay until they are
    overwritten. *)
Theorem X5_cache_never_evicts env :
  (forall domain w d,
     d <> domain ->
     mxCache (snd (getMXRecordsCached env domain w)) !! d = mxCache w !! d) /\
  (forall acts w d,
     is_Some (mxCache w !! d) ->
     is_Some (mxCache (exec_all env acts w) !! d)).
Proof.
  split.
  - intros domain w d. apply getMXRecordsCached_other.
  - unfold exec_all. induction acts as [|a acts IH]; simpl; [trivial|].
    intros w d Hd. apply IH. destruct a as [domain|email|n]; simpl.
    + now apply getMXRecordsCached_keeps.
    + now rewrite verifyEmailSMTP_mxCache.
    + exact Hd.
Qed.

Lemma X5_cache_never_evicts_witness :
  is_Some
    (mxCache
       (exec_all env_no_mx
          [ActElapse 600000000000; ActResolve "x.test"; ActResolve "y.test";
           ActProbe "a@x.test"]
          (cached_world 0)) !! "x.test").
Proof.
  apply (proj2 (X5_cache_never_evicts env_no_mx)).
  exists {| records := sample_mx; timestamp := 0 |}. reflexivity.
Defined.

Lemma verifyEmailSMTP_now env email w :
  (now w <= now (snd (verifyEmailSMTP env email w)))%Z.
Proof. probe_unfold. probe_cases; lia. Qed.

Lemma getMXRecordsCached_past env domain w :
  cache_past w ->
  cache_past (snd (getMXRecordsCached env domain w)) /\
  (now w <= now (snd (getMXRecordsCached env domain w)))%Z.
Proof.
  intros Hp. destruct (fresh_entry domain w) eqn:Hf.
  - destruct (fresh_entry_true _ _ Hf) as (entry & He & Ht).
    rewrite (getMXRecordsCached_hit env domain w entry He Ht). simpl.
    split; [exact Hp|lia].
  - rewrite (getMXRecordsCached_miss env domain w Hf). simpl.
    destruct (net_LookupMX env (netlog w) domain) as [[|mx recs] [msg|]];
      simpl; (split; [|lia]); intros d e; simpl;
      try (intros He; specialize (Hp d e He); lia).
    rewrite lookup_insert. case_decide.
    + intros [= <-]. simpl. lia.
    + intros He. specialize (Hp d e He). lia.
Qed.

Lemma exec_past env a w :
  cache_past w ->
  cache_past (exec env a w) /\ (now w <= now (exec env a w))%Z.
Proof.
  intros Hp. destruct a as [domain|email|d]; simpl.
  - now apply getMXRecordsCached_past.
  - pose proof (verifyEmailSMTP_now env email w) as Hn.
    split; [|exact Hn]. intros dm e.
    rewrite verifyEmailSMTP_mxCache. intros He. specialize (Hp dm e He). lia.
  - split; [|lia]. intros dm e He. specialize (Hp dm e He). simpl in *. lia.
Qed.

(** X6.  The clock never runs backwards through resolutions, probes and
    waiting, and no cached entry is ever stamped in the future: in every
    state a process started at [t0] can reach, the age [time.Since] of
    every entry is at least zero. *)
Theorem X6_cache_ages_nonnegative env t0 acts :
  let w := exec_all env acts (initial_World t0) in
  (t0 <= now w)%Z /\
  (forall domain entry,
     mxCache w !! domain = Some entry ->
     (0 <= fst (time_Since (timestamp entry) w))%Z).
Proof.
  assert (H : forall w,
             cache_past w ->
             cache_past (exec_all env acts w) /\
             (now w <= now (exec_all env acts w))%Z).
  { unfold exec_all. induction acts as [|a acts IH]; simpl; intros w Hp.
    - split; [exact Hp|lia].
    - destruct (exec_past env a w Hp) as [Hp1 Hn1].
      destruct (IH _ Hp1) as [Hp2 Hn2]. split; [exact Hp2|lia]. }
  destruct (H (initial_World t0)) as [Hp Hn].
  { intros d e He. simpl in He. now rewrite lookup_empty in He. }
  simpl in *. split; [exact Hn|].
  intros d e He. specialize (Hp d e He). unfold time_Since, gets. simpl. lia.
Qed.

Lemma X6_cache_ages_nonnegative_witness :
  let w := exec_all env_accept [ActResolve "x.test"; ActElapse 5] (initial_World 7) in
  mxCache w !! "x.test" =
    Some {| records := sample_mx; timestamp := 1000007 |} /\
  (0 <= fst (time_Since 1000007 w))%Z.
Proof.
  split; [reflexivity|].
  apply (proj2 (X6_cache_ages_nonnegative env_accept 7
                  [ActResolve "x.test"; ActElapse 5])
           "x.test" {| records := sample_mx; timestamp := 1000007 |}).
  reflexivity.
Defined.

(** X7.  What the resolver hands back: never hosts together with an
    error; with a cache that holds no empty entry, never an empty host
    list without an error.  When it has to look the domain up and the
    lookup fails, the caller gets the lookup's own error and no hosts,
    also when an expired entry is still in the cache: a stale entry is
    never served.  When the lookup finds nothing, the error is "no MX
    records found". *)
Theorem X7_resolver_result env domain w :
  let r := fst (getMXRecordsCached env domain w) in
  (snd r = None \/ fst r = []) /\
  (cache_ok (mxCache w) -> snd r = None -> fst r <> []) /\
  (fresh_entry domain w = false ->
   forall recs msg,
     net_LookupMX env (netlog w) domain = (recs, Some msg) ->
     r = ([], Some msg)) /\
  (fresh_entry domain w = false ->
   net_LookupMX env (netlog w) domain = ([], None) ->
   r = ([], Some "no MX records found")).
Proof.
  simpl. destruct (fresh_entry domain w) eqn:Hf.
  - destruct (fresh_entry_true _ _ Hf) as (entry & He & Ht).
    rewrite (getMXRecordsCached_hit env domain w entry He Ht). simpl.
    repeat split; try discriminate; [now left|].
    intros Hok _. exact (Hok _ _ He).
  - rewrite (getMXRecordsCached_miss env domain w Hf). simpl.
    destruct (net_LookupMX env (netlog w) domain) as [[|mx recs] [msg|]];
      simpl; repeat split; auto; try discriminate;
      try (intros; simplify_eq; reflexivity).
Qed.

Lemma X7_resolver_result_witness :
  fst (getMXRecordsCached env_dns_error "x.test" (cached_world mxCacheTTL)) =
    ([], Some "lookup x.test: no such host").
Proof.
  apply (proj1 (proj2 (proj2
           (X7_resolver_result env_dns_error "x.test"
              (cached_world mxCacheTTL))))
           eq_refl [] "lookup x.test: no such host" eq_refl).
Defined.

(** X8.  An entry is served while its age is below five minutes, and not
    at five minutes: a call that finds an entry aged exactly
    [mxCacheTTL = 300000000000] nanoseconds or more issues a lookup, one
    that finds it a nanosecond younger issues none. *)
Theorem X8_expiry_boundary env domain w entry :
  mxCache w !! domain = Some entry ->
  mxCacheTTL = 300000000000%Z /\
  ((now w - timestamp entry >= mxCacheTTL)%Z ->
   issued w (snd (getMXRecordsCached env domain w)) = [OpLookupMX domain]) /\
  ((now w - timestamp entry <= mxCacheTTL - 1)%Z ->
   issued w (snd (getMXRecordsCached env domain w)) = []).
Proof.
  intros He. split; [reflexivity|]. split; intros Ht.
  - assert (Hf : fresh_entry domain w = false).
    { unfold fresh_entry. rewrite He. apply Z.ltb_ge. lia. }
    rewrite (getMXRecordsCached_miss env domain w Hf). unfold issued. simpl.
    destruct (net_LookupMX env (netlog w) domain) as [[|? ?] [?|]];
      simpl; apply drop_app_length.
  - rewrite (getMXRecordsCached_hit env domain w entry He) by lia.
    unfold issued. simpl. apply drop_all.
Qed.

Lemma X8_expiry_boundary_witness :
  issued (cached_world 300000000000)
    (snd (getMXRecordsCached env_accept "x.test" (cached_world 300000000000))) =
    [OpLookupMX "x.test"] /\
  issued (cached_world 299999999999)
    (snd (getMXRecordsCached env_accept "x.test" (cached_world 299999999999))) =
    [].
Proof.
  split.
  - apply (proj1 (proj2 (X8_expiry_boundary env_accept "x.test"
                           (cached_world 300000000000)
                           {| records := sample_mx; timestamp := 0 |} eq_refl))).
    vm_compute. discriminate.
  - apply (proj2 (proj2 (X8_expiry_boundary env_accept "x.test"
                           (cached_world 299999999999)
                           {| records := sample_mx; timestamp := 0 |} eq_refl))).
    vm_compute. discriminate.
Defined.

(** X9.  [checkMXRecords] and the resolver agree on a domain that is not
    freshly cached: each issues exactly one lookup, and the first says
    [(true, nil)] exactly when the second returns without error; an error
    of the lookup is passed on as it is by both. *)
Theorem X9_check_agrees_with_resolver env domain w :
  fresh_entry domain w = false ->
  issued w (snd (checkMXRecords env domain w)) = [OpLookupMX domain] /\
  issued w (snd (getMXRecordsCached env domain w)) = [OpLookupMX domain] /\
  (fst (checkMXRecords env domain w) = (true, None) <->
   snd (fst (getMXRecordsCached env domain w)) = None) /\
  (forall msg,
     snd (net_LookupMX env (netlog w) domain) = Some msg ->
     fst (checkMXRecords env domain w) = (false, Some msg) /\
     fst (getMXRecordsCached env domain w) = ([], Some msg)).
Proof.
  intros Hf. rewrite (getMXRecordsCached_miss env domain w Hf).
  unfold issued. probe_unfold. simpl.
  destruct (net_LookupMX env (netlog w) domain) as [[|mx recs] [msg|]];
    simpl; rewrite ?drop_app_length;
    repeat split; try discriminate; try reflexivity;
    intros; simplify_eq; reflexivity.
Qed.

Lemma X9_check_agrees_with_resolver_witness :
  fst (checkMXRecords env_accept "x.test" w0) = (true, None) /\
  snd (fst (getMXRecordsCached env_accept "x.test" w0)) = None.
Proof.
  pose proof (X9_check_agrees_with_resolver env_accept "x.test" w0 eq_refl)
    as (_ & _ & Hiff & _).
  split; [apply Hiff|]; reflexivity.
Defined.

(** ** More on the batch dispatcher *)

Lemma reachable_Inv env emails w sched s :
  run env sched (initial_State emails w) = Some s -> Inv emails s.
Proof. apply run_Inv, initial_Inv. Qed.

Lemma exited_hold_nothing (l : list Worker) :
  Forall exited l -> count_if holds_token l = 0.
Proof.
  induction 1 as [|x l Hx _ IH]; simpl; [reflexivity|].
  rewrite IH. unfold exited in Hx. unfold holds_token. now rewrite Hx.
Qed.

(** X10.  Writes to the sink exclude one another: at every point of
    every execution at most one goroutine, the handler's own included, is
    between [writeMutex.Lock()] and [Unlock()], and the mutex is locked
    exactly when one is. *)
Theorem X10_sink_writes_exclusive env emails w sched s :
  run env sched (initial_State emails w) = Some s ->
  count_if writing (workers s) + main_writing (main s) <= 1 /\
  (writeMutex s = true <->
   count_if writing (workers s) + main_writing (main s) = 1).
Proof.
  intros Hrun. pose proof (reachable_Inv _ _ _ _ _ Hrun) as HI.
  pose proof (inv_mutex _ _ HI) as Hmx.
  destruct (writeMutex s); split; try lia; split; intros; try lia;
    try reflexivity; try discriminate.
Qed.

Lemma X10_sink_writes_exclusive_witness :
  exists s,
    run env_accept
      [TMain; TMain; TMain; TMain; TMain; TMain;
       TWorker 0; TWorker 1; TWorker 0]
      (initial_State two w0) = Some s /\
    writeMutex s = true /\ count_if writing (workers s) = 1 /\
    step env_accept (TWorker 1) s = Blocked.
Proof.
  destruct (run env_accept
              [TMain; TMain; TMain; TMain; TMain; TMain;
               TWorker 0; TWorker 1; TWorker 0]
              (initial_State two w0)) as [s|] eqn:Hrun;
    [|vm_compute in Hrun; discriminate].
  destruct (X10_sink_writes_exclusive env_accept two w0 _ s Hrun) as [Hle Hiff].
  exists s. split; [reflexivity|].
  vm_compute in Hrun. injection Hrun as Hs.
  assert (Hm : writeMutex s = true) by now rewrite <- Hs.
  split; [exact Hm|]. split.
  - apply Hiff in Hm. rewrite <- Hs in Hm |- *. vm_compute. reflexivity.
  - rewrite <- Hs. vm_compute. reflexivity.
Defined.

(** X11.  When the handler returns nothing is left behind: every
    goroutine it started has returned, there is one for each address of
    the batch, in batch order, all tokens are back in [sem], the
    [WaitGroup] counter is zero and the write mutex is free. *)
Theorem X11_clean_return env emails w sched s :
  run env sched (initial_State emails w) = Some s ->
  main s = MDone ->
  Forall exited (workers s) /\ map wmail (workers s) = emails /\
  sem s = 0 /\ wg s = 0 /\ writeMutex s = false.
Proof.
  intros Hrun Hd. pose proof (reachable_Inv _ _ _ _ _ Hrun) as HI.
  assert (Hj : Forall exited (workers s))
    by (apply (inv_joined _ _ HI); now rewrite Hd).
  destruct (exited_counts _ Hj) as (Hw & Hl & _ & _).
  pose proof (exited_hold_nothing _ Hj) as Hh.
  pose proof (inv_sem _ _ HI) as Hsem. pose proof (inv_wg _ _ HI) as Hwg.
  pose proof (inv_mutex _ _ HI) as Hmx. pose proof (inv_emails _ _ HI) as Hem.
  rewrite Hd in *. simpl in *. rewrite app_nil_r in Hem.
  repeat split; auto; try lia.
  destruct (writeMutex s); [lia|reflexivity].
Qed.

Lemma X11_clean_return_witness :
  exists s,
    run env_accept sched_two (initial_State two w0) = Some s /\
    map wmail (workers s) = two /\ sem s = 0 /\ wg s = 0.
Proof.
  destruct (run env_accept sched_two (initial_State two w0)) as [s|] eqn:Hrun;
    [|vm_compute in Hrun; discriminate].
  assert (Hd : main s = MDone)
    by (vm_compute in Hrun; injection Hrun as <-; reflexivity).
  destruct (X11_clean_return env_accept two w0 sched_two s Hrun Hd)
    as (_ & Hm & Hs & Hw & _).
  exists s. auto.
Defined.

(** X12.  Goroutines are started in batch order: at every point the
    goroutines started so far are those of the first addresses of the
    batch, one each and in order, and what the handler has still to start
    is the rest of the batch. *)
Theorem X12_admission_in_order env emails w sched s :
  run env sched (initial_State emails w) = Some s ->
  map wmail (workers s) ++ pending (main s) = emails /\
  map wmail (workers s) = take (length (workers s)) emails.
Proof.
  intros Hrun. pose proof (reachable_Inv _ _ _ _ _ Hrun) as HI.
  pose proof (inv_emails _ _ HI) as Hem. split; [exact Hem|].
  rewrite <- Hem. rewrite <- (length_map wmail (workers s)).
  now rewrite take_app_length.
Qed.

Lemma X12_admission_in_order_witness :
  exists s,
    run env_accept fill_pool (initial_State eleven w0) = Some s /\
    map wmail (workers s) = take 10 eleven /\
    pending (main s) = ["a10@x.test"].
Proof.
  destruct (run env_accept fill_pool (initial_State eleven w0)) as [s|] eqn:Hrun;
    [|vm_compute in Hrun; discriminate].
  destruct (X12_admission_in_order env_accept eleven w0 fill_pool s Hrun)
    as [_ Htake].
  exists s. split; [reflexivity|].
  vm_compute in Hrun. injection Hrun as Hs. rewrite Htake.
  rewrite <- Hs. split; reflexivity.
Defined.

Lemma count_written (l : list Worker) :
  length (flat_map written_mail l) = count_if has_written l.
Proof.
  induction l as [|x l IH]; simpl; [reflexivity|].
  rewrite length_app, IH. unfold written_mail. now destruct (has_written x).
Qed.

Lemma verdicts_sent (rs : list EmailResponse) (tail : list SSE) :
  verdicts (map emailResult rs ++ tail) = rs ++ verdicts tail.
Proof.
  unfold verdicts. rewrite flat_map_app. f_equal.
  induction rs as [|r rs IH]; simpl; [reflexivity|now rewrite IH].
Qed.

(** X13.  A goroutine gives its token back only after its verdict is
    written: at every point the number of verdicts sent is the number of
    goroutines past their write, and that is at least the number of
    tokens given back; so a slow sink holds admission back. *)
Theorem X13_token_after_verdict env emails w sched s :
  run env sched (initial_State emails w) = Some s ->
  length (verdicts (out s)) = count_if has_written (workers s) /\
  released s <= length (verdicts (out s)) /\
  length (verdicts (out s)) <= length (workers s).
Proof.
  intros Hrun. pose proof (reachable_Inv _ _ _ _ _ Hrun) as HI.
  destruct (inv_out _ _ HI) as (rs & Hout & Hperm).
  assert (Hlen : length (verdicts (out s)) = count_if has_written (workers s)).
  { rewrite Hout, verdicts_sent.
    assert (Hend : verdicts (end_sent (main s)) = [])
      by (destruct (main s); reflexivity).
    rewrite Hend, app_nil_r.
    apply Permutation_length in Hperm. rewrite length_map in Hperm.
    now rewrite Hperm, count_written. }
  rewrite Hlen. repeat split.
  - unfold released. apply count_if_impl. intros x.
    unfold holds_token, has_written. now destruct (wpc x).
  - apply count_if_le_length.
Qed.

Lemma X13_token_after_verdict_witness :
  exists s,
    run env_accept [TMain; TMain; TMain; TWorker 0; TWorker 0; TWorker 0]
      (initial_State two w0) = Some s /\
    length (verdicts (out s)) = 1 /\ released s = 0 /\ sem s = 1.
Proof.
  destruct (run env_accept
              [TMain; TMain; TMain; TWorker 0; TWorker 0; TWorker 0]
              (initial_State two w0)) as [s|] eqn:Hrun;
    [|vm_compute in Hrun; discriminate].
  destruct (X13_token_after_verdict env_accept two w0 _ s Hrun)
    as (Hlen & _ & _).
  exists s. split; [reflexivity|].
  vm_compute in Hrun. injection Hrun as Hs.
  rewrite Hlen. rewrite <- Hs. repeat split; reflexivity.
Defined.

Lemma step_out env t s s' :
  step env t s = Stepped s' -> exists more, out s' = out s ++ more.
Proof.
  destruct t as [|i]; simpl.
  - unfold step_main.
    destruct (main s) as [[|email rest]|email rest|email rest| | | |]; simpl;
      repeat match goal with
        | |- context [if ?b then _ else _] => destruct b
        end;
      try discriminate; intros [= <-]; simpl;
      first [ now exists []; rewrite app_nil_r | eauto ].
  - unfold step_worker. destruct (workers s !! i) as [[mail pc]|]; [|discriminate].
    destruct pc; simpl.
    + destruct (verifyEmailSMTP env mail (world s)). intros [= <-]. simpl.
      exists []. now rewrite app_nil_r.
    + destruct (writeMutex s); [discriminate|]. intros [= <-]. simpl.
      exists []. now rewrite app_nil_r.
    + intros [= <-]. simpl. eauto.
    + destruct (sem s); [discriminate|]. intros [= <-]. simpl.
      exists []. now rewrite app_nil_r.
    + destruct (wg s); [discriminate|]. intros [= <-]. simpl.
      exists []. now rewrite app_nil_r.
    + discriminate.
Qed.

Lemma run_app env sched1 sched2 s :
  run env (sched1 ++ sched2) s =
  match run env sched1 s with
  | Some s1 => run env sched2 s1
  | None => None
  end.
Proof.
  revert s. induction sched1 as [|t sched1 IH]; simpl; intros s; [reflexivity|].
  destruct (step env t s); auto.
Qed.

(** X14.  What has been sent stays sent: along an execution the sequence
    of events only grows at its end, so what a client has received at
    some point is a prefix of what it has received at any later point,
    and the final sequence extends them all. *)
Theorem X14_events_append_only env sched1 sched2 s s1 s2 :
  run env sched1 s = Some s1 ->
  run env sched2 s1 = Some s2 ->
  run env (sched1 ++ sched2) s = Some s2 /\
  exists more, out s2 = out s1 ++ more.
Proof.
  intros H1 H2. split; [now rewrite run_app, H1|].
  clear H1. revert s1 H2. induction sched2 as [|t sched IH]; simpl; intros s1.
  - intros [= <-]. exists []. now rewrite app_nil_r.
  - destruct (step env t s1) as [s'| | |] eqn:Hs; try discriminate.
    intros Hr. destruct (step_out _ _ _ _ Hs) as (m1 & Hm1).
    destruct (IH _ Hr) as (m2 & Hm2). exists (m1 ++ m2).
    now rewrite Hm2, Hm1, app_assoc.
Qed.

Lemma X14_events_append_only_witness :
  exists s1 s2 more,
    run env_accept (take 10 sched_two) (initial_State two w0) = Some s1 /\
    run env_accept sched_two (initial_State two w0) = Some s2 /\
    out s2 = out s1 ++ more /\ length (out s1) = 1.
Proof.
  destruct (run env_accept (take 10 sched_two) (initial_State two w0))
    as [s1|] eqn:H1; [|vm_compute in H1; discriminate].
  destruct (run env_accept (drop 10 sched_two) s1) as [s2|] eqn:H2;
    [|vm_compute in H1; injection H1 as <-; vm_compute in H2; discriminate].
  destruct (X14_events_append_only env_accept _ _ _ s1 s2 H1 H2)
    as (Hrun & more & Hmore).
  exists s1, s2, more. split; [reflexivity|].
  split; [rewrite <- Hrun; now rewrite take_drop|].
  split; [exact Hmore|].
  vm_compute in H1. injection H1 as <-. reflexivity.
Defined.

Lemma started_run env emails w k :
  k <= length emails -> k <= concurrencyLimit ->
  run env (replicate (3 * k) TMain) (initial_State emails w) =
    Some (started emails k w).
Proof.
  induction k as [|k IH]; intros Hk Hc; [reflexivity|].
  replace (3 * S k) with (3 * k + 3) by lia.
  rewrite replicate_add, run_app, IH by lia.
  destruct (lookup_lt_is_Some_2 emails k ltac:(lia)) as [e He].
  simpl. unfold step_main, started. simpl.
  rewrite (drop_S _ _ _ He). simpl.
  destruct (Nat.ltb_spec k concurrencyLimit) as [_|Hge]; [|lia]. simpl.
  unfold spawn, set_main, set_sem, set_wg. simpl.
  now rewrite (take_S_r _ _ _ He), map_app.
Qed.

(** X15.  The ceiling is reached: for any batch and any [k] up to the
    batch size and up to 10, there is an execution in which [k] probes
    are in flight together before any verdict has been sent; the handler
    really runs ten probes side by side and does not fall back to one at
    a time. *)
Theorem X15_ceiling_reached env emails w k :
  k <= length emails -> k <= concurrencyLimit ->
  exists sched s,
    run env sched (initial_State emails w) = Some s /\
    in_flight s = k /\ out s = [] /\
    map wmail (workers s) = take k emails.
Proof.
  intros Hk Hc. exists (replicate (3 * k) TMain), (started emails k w).
  split; [now apply started_run|]. unfold in_flight, started. simpl.
  split; [|split; [reflexivity|]].
  - rewrite <- (length_take_le emails k Hk) at 2.
    induction (take k emails) as [|e l IH]; simpl; [reflexivity|now rewrite IH].
  - rewrite map_map. simpl. apply map_id.
Qed.

Lemma X15_ceiling_reached_witness :
  exists sched s,
    run env_accept sched (initial_State eleven w0) = Some s /\
    in_flight s = 10 /\ out s = [] /\
    map wmail (workers s) = take 10 eleven.
Proof.
  apply (X15_ceiling_reached env_accept eleven w0 10);
    [simpl; lia|unfold concurrencyLimit; lia].
Defined.

Lemma step_held env (P : EmailResponse -> Prop) t s s' :
  (forall mail world,
     P (response mail (fst (verifyEmailSMTP env mail world)))) ->
  Forall P (verdicts (out s)) /\ Forall (held P) (workers s) ->
  step env t s = Stepped s' ->
  Forall P (verdicts (out s')) /\ Forall (held P) (workers s').
Proof.
  intros HP [Ho Hw]. destruct t as [|i]; simpl.
  - unfold step_main.
    destruct (main s) as [[|email rest]|email rest|email rest| | | |]; simpl;
      repeat match goal with
        | |- context [if ?b then _ else _] => destruct b
        end;
      try discriminate; intros [= <-]; simpl; auto.
    + split; [exact Ho|]. apply Forall_app. split; [exact Hw|].
      repeat constructor.
    + split; [|exact Hw]. unfold verdicts. rewrite flat_map_app. simpl.
      now rewrite app_nil_r.
  - unfold step_worker.
    destruct (workers s !! i) as [[mail pc]|] eqn:Hi; [|discriminate].
    pose proof (Forall_lookup_1 _ _ _ _ Hw Hi) as Hheld.
    unfold held in Hheld. simpl in Hheld.
    destruct pc as [|res|res| | |]; simpl.
    + pose proof (HP mail (world s)) as Hr.
      destruct (verifyEmailSMTP env mail (world s)) as [r world'].
      intros [= <-]. simpl. split; [exact Ho|]. now apply Forall_insert.
    + destruct (writeMutex s); [discriminate|]. intros [= <-]. simpl.
      split; [exact Ho|]. now apply Forall_insert.
    + intros [= <-]. simpl. split; [|now apply Forall_insert].
      unfold verdicts. rewrite flat_map_app. simpl.
      apply Forall_app. split; [exact Ho|].
      constructor; [exact Hheld|constructor].
    + destruct (sem s); [discriminate|]. intros [= <-]. simpl.
      split; [exact Ho|]. now apply Forall_insert.
    + destruct (wg s); [discriminate|]. intros [= <-]. simpl.
      split; [exact Ho|]. now apply Forall_insert.
    + discriminate.
Qed.

Lemma run_held env (P : EmailResponse -> Prop) sched s s' :
  (forall mail world,
     P (response mail (fst (verifyEmailSMTP env mail world)))) ->
  Forall P (verdicts (out s)) /\ Forall (held P) (workers s) ->
  run env sched s = Some s' ->
  Forall P (verdicts (out s')).
Proof.
  intros HP. revert s. induction sched as [|t sched IH]; simpl; intros s H.
  - intros [= <-]. apply H.
  - destruct (step env t s) as [s1| | |] eqn:Hs; try discriminate.
    apply IH. exact (step_held _ _ _ _ _ HP H Hs).
Qed.

Lemma checkEmail_fst env email w :
  fst (checkEmail env email w) =
  response email (fst (verifyEmailSMTP env email w)).
Proof.
  unfold checkEmail, bind, ret. now destruct (verifyEmailSMTP env email w).
Qed.

(** X16.  Against a remote side whose answers do not change, the batch
    endpoint says what the single-address endpoint says: every verdict
    the batch handler sends is the verdict [checkEmailHandler] gives for
    the same address, in whatever order and interleaving the goroutines
    ran. *)
Theorem X16_batch_agrees_with_single env emails w w' sched s v :
  stateless env ->
  run env sched (initial_State emails w) = Some s ->
  In v (verdicts (out s)) ->
  v = fst (checkEmail env (Email v) w').
Proof.
  intros Hs Hrun Hin.
  assert (Hall : Forall (fun v => v = fst (checkEmail env (Email v) w'))
                   (verdicts (out s))).
  { apply (run_held env _ sched (initial_State emails w) s);
      [|split; constructor|exact Hrun].
    intros mail world. rewrite checkEmail_fst, response_Email.
    now rewrite (stateless_result env mail world w' Hs). }
  rewrite Forall_forall in Hall. apply Hall. now apply list_elem_of_In.
Qed.

Lemma X16_batch_agrees_with_single_witness :
  exists s,
    run env_refused sched_two (initial_State two w0) = Some s /\
    forall v, In v (verdicts (out s)) ->
              v = fst (checkEmail env_refused (Email v) w0).
Proof.
  destruct (run env_refused sched_two (initial_State two w0)) as [s|] eqn:Hrun;
    [|vm_compute in Hrun; discriminate].
  exists s. split; [reflexivity|]. intros v Hin.
  exact (X16_batch_agrees_with_single env_refused two w0 w0 sched_two s v
           (stateless_constant_env _ _ _ _ _ _) Hrun Hin).
Defined.

Lemma step_idle env t s s' :
  workers s = [] -> pending (main s) = [] ->
  step env t s = Stepped s' ->
  workers s' = [] /\ pending (main s') = [] /\ world s' = world s /\
  t = TMain.
Proof.
  intros Hw Hp. destruct t as [|i]; simpl.
  - unfold step_main.
    destruct (main s) as [[|email rest]|email rest|email rest| | | |];
      simpl in *; try discriminate Hp;
      repeat match goal with
        | |- context [if ?b then _ else _] => destruct b
        end;
      try discriminate; intros [= <-]; simpl; auto.
  - unfold step_worker. rewrite Hw. discriminate.
Qed.

(** X17.  An empty batch starts no goroutine and touches nothing: only
    the handler's own goroutine ever steps, no lookup and no other
    network operation is issued, the process state is as it was, and what
    is sent on return is the marker "All emails processed" alone. *)
Theorem X17_empty_batch env w sched s :
  run env sched (initial_State [] w) = Some s ->
  sched = replicate (length sched) TMain /\
  workers s = [] /\ world s = w /\
  (main s = MDone -> out s = [endEvent "All emails processed"]) /\
  (main s <> MDone -> out s = []).
Proof.
  intros Hrun.
  assert (H : forall s0,
             workers s0 = [] -> pending (main s0) = [] ->
             run env sched s0 = Some s ->
             sched = replicate (length sched) TMain /\
             workers s = [] /\ world s = world s0).
  { clear Hrun. induction sched as [|t sched IH]; simpl; intros s0 Hw Hp.
    - intros [= <-]. auto.
    - destruct (step env t s0) as [s1| | |] eqn:Hs; try discriminate.
      destruct (step_idle _ _ _ _ Hw Hp Hs) as (Hw1 & Hp1 & Hwd & ->).
      intros Hr. destruct (IH s1 Hw1 Hp1 Hr) as (Hsched & Hws & Hwds).
      rewrite <- Hsched. rewrite Hwds, Hwd. auto. }
  destruct (H (initial_State [] w) eq_refl eq_refl Hrun)
    as (Hsched & Hws & Hwd).
  repeat split; auto.
  - intros Hd.
    destruct (Inv_out [] s (reachable_Inv _ _ _ _ _ Hrun))
      as (rs & [(Hnd & _)|(_ & Hout & Hperm)]); [contradiction|].
    apply Permutation_nil_r in Hperm. apply map_eq_nil in Hperm.
    now rewrite Hout, Hperm.
  - intros Hnd.
    destruct (Inv_out [] s (reachable_Inv _ _ _ _ _ Hrun))
      as (rs & [(_ & Hout & Hlen)|(Hd & _)]); [|contradiction].
    simpl in Hlen. destruct rs; [exact Hout|simpl in Hlen; lia].
Qed.

Lemma X17_empty_batch_witness :
  exists s,
    run env_accept [TMain; TMain; TMain; TMain] (initial_State [] w0) = Some s /\
    world s = w0 /\ out s = [endEvent "All emails processed"].
Proof.
  destruct (run env_accept [TMain; TMain; TMain; TMain] (initial_State [] w0))
    as [s|] eqn:Hrun; [|vm_compute in Hrun; discriminate].
  destruct (X17_empty_batch env_accept w0 _ s Hrun) as (_ & _ & Hw & Hd & _).
  exists s. split; [reflexivity|]. split; [exact Hw|].
  apply Hd. vm_compute in Hrun. injection Hrun as <-. reflexivity.
Defined.

(** What one probe adds to the log. *)
Lemma verifyEmailSMTP_cost env email w :
  exists ops,
    netlog (snd (verifyEmailSMTP env email w)) = netlog w ++ ops /\
    lookups ops <= 2 /\ length (dialled ops) <= 1.
Proof.
  probe_unfold. unfold lookups.
  probe_cases;
    first [ exists []; split; [now rewrite app_nil_r|simpl; lia]
          | eexists; split;
            [repeat rewrite <- app_assoc; reflexivity|simpl; lia] ].
Qed.

Lemma step_cost env t s s' :
  step env t s = Stepped s' ->
  lookups (netlog (world s'))
    + 2 * count_if probing (workers s') + 2 * length (pending (main s'))
  <= lookups (netlog (world s))
    + 2 * count_if probing (workers s) + 2 * length (pending (main s)) /\
  length (dialled (netlog (world s')))
    + count_if probing (workers s') + length (pending (main s'))
  <= length (dialled (netlog (world s)))
    + count_if probing (workers s) + length (pending (main s)).
Proof.
  destruct t as [|i]; simpl.
  - unfold step_main.
    destruct (main s) as [[|email rest]|email rest|email rest| | | |]; simpl;
      repeat match goal with
        | |- context [if ?b then _ else _] => destruct b
        end;
      try discriminate; intros [= <-]; simpl;
      rewrite ?count_if_app; simpl; lia.
  - unfold step_worker.
    destruct (workers s !! i) as [[mail pc]|] eqn:Hi; [|discriminate].
    destruct (worker_at _ _ _ Hi) as (l1 & l2 & Hl & Hupd).
    destruct pc as [|res|res| | |]; simpl.
    + destruct (verifyEmailSMTP_cost env mail (world s)) as (ops & Hlog & H2 & H1).
      destruct (verifyEmailSMTP env mail (world s)) as [r world'].
      simpl in Hlog. intros [= <-]. simpl. rewrite Hupd, Hl, Hlog.
      unfold lookups in *. unfold dialled in *.
      rewrite !count_if_app, flat_map_app, length_app. simpl. lia.
    + destruct (writeMutex s); [discriminate|]. intros [= <-]. simpl.
      rewrite Hupd, Hl, !count_if_app. simpl. lia.
    + intros [= <-]. simpl. rewrite Hupd, Hl, !count_if_app. simpl. lia.
    + destruct (sem s); [discriminate|]. intros [= <-]. simpl.
      rewrite Hupd, Hl, !count_if_app. simpl. lia.
    + destruct (wg s); [discriminate|]. intros [= <-]. simpl.
      rewrite Hupd, Hl, !count_if_app. simpl. lia.
    + discriminate.
Qed.

(** X18.  What a batch costs the network: a single probe issues at most
    two DNS lookups and one dial, and at every point of every execution
    on a batch of N addresses the handler has issued at most 2 N lookups
    and N dials in all. *)
Theorem X18_batch_network_cost env emails w sched s :
  run env sched (initial_State emails w) = Some s ->
  lookups (netlog (world s)) <= lookups (netlog w) + 2 * length emails /\
  length (dialled (netlog (world s))) <=
    length (dialled (netlog w)) + length emails.
Proof.
  assert (H : forall s0,
             run env sched s0 = Some s ->
             lookups (netlog (world s))
               + 2 * count_if probing (workers s)
               + 2 * length (pending (main s))
             <= lookups (netlog (world s0))
               + 2 * count_if probing (workers s0)
               + 2 * length (pending (main s0)) /\
             length (dialled (netlog (world s)))
               + count_if probing (workers s) + length (pending (main s))
             <= length (dialled (netlog (world s0)))
               + count_if probing (workers s0) + length (pending (main s0))).
  { induction sched as [|t sched IH]; simpl; intros s0.
    - intros [= <-]. lia.
    - destruct (step env t s0) as [s1| | |] eqn:Hs; try discriminate.
      intros Hr. apply IH in Hr. apply step_cost in Hs. lia. }
  intros Hrun. apply H in Hrun. simpl in Hrun. lia.
Qed.

Lemma X18_batch_network_cost_witness :
  exists s,
    run env_accept sched_two (initial_State two w0) = Some s /\
    lookups (netlog (world s)) = 4 /\
    lookups (netlog (world s)) <= 0 + 2 * 2.
Proof.
  destruct (run env_accept sched_two (initial_State two w0)) as [s|] eqn:Hrun;
    [|vm_compute in Hrun; discriminate].
  destruct (X18_batch_network_cost env_accept two w0 sched_two s Hrun)
    as [Hl _].
  exists s. split; [reflexivity|]. split; [|exact Hl].
  vm_compute in Hrun. injection Hrun as <-. reflexivity.
Defined.
